(** * Unit of Work: registry and transaction lifecycle (package [uow])

    A shallow embedding of [uow/uow.go].  Go's mutable objects live in an
    explicit store: the registry maps ([map[RepositoryName]RepositoryFactory])
    are heap cells addressed by a reference that several holders may share,
    and a [*UnitOfWork] is a pointer to a struct whose [repositories] field
    can be re-assigned.  The code of [database/sql] is not part of the
    package; it is taken as a parameter (class [SqlDriver]).  So is the
    code of the closures that callers register as factories (class
    [Closures]): a factory is a Go func value, nil or a closure, and a
    closure's call is any Go code. *)

From stdpp Require Import gmap strings list fin_maps.

(** ** Errors and panics *)

(** The three sentinel errors of the package, and the errors that come from
    elsewhere (the driver, the caller's function).  [ErrWrapped] stands for
    an error built around another one, as [fmt.Errorf] with [%w] does. *)
Inductive error_value : Type :=
  | ErrRepositoryNotRegistered
  | ErrRepositoryAlreadyRegistered
  | ErrInvalidRepositoryType
  | ErrForeign (msg : string)
  | ErrWrapped (msg : string) (cause : error_value).

(** Go's [error] interface value: [None] is [nil]. *)
Definition error : Type := option error_value.

(** What a panic carries. *)
Inductive panic_value : Type :=
  | NilPointerDereference
  | NilMapAssignment
  | UserPanic (msg : string).

(** The outcome of running a piece of Go code: it returns, or it panics. *)
Inductive Res (A : Type) : Type :=
  | Ret (a : A)
  | Panic (p : panic_value).
Arguments Ret {A} a.
Arguments Panic {A} p.

Definition RepositoryName : Type := string.

(** A heap address.  A map value or a pointer that is [nil] is [None]. *)
Definition loc : Type := nat.
Definition ref : Type := option loc.

(** ** The external transactional resource ([database/sql])

    [E] is the state of everything outside the package: the database
    server, the driver, the state the caller's closures capture. *)
Class SqlDriver (DB Tx Ctx E : Type) : Type := {
  BeginTx : DB → Ctx → E → (Tx * error) * E;
  Commit : Tx → E → error * E;
  Rollback : Tx → E → error * E
}.

Section Uow.

Context {DB Tx Ctx E Obj Fn : Type} {driver : SqlDriver DB Tx Ctx E}.

(** [type Repository any]: [None] is the nil interface value. *)
Definition Repository : Type := option Obj.

(** [type RepositoryFactory func(tx *sql.Tx) Repository].  A func value is
    nil ([None]) or a closure; [Fn] is the type of closures, and what the
    call of one does is given by the class [Closures] below. *)
Definition RepositoryFactory : Type := option Fn.

(** [type Transaction struct].  Its fields are never re-assigned, so the
    struct is a value; [t_repositories] is a reference to a shared map. *)
Record Transaction : Type := mkTransaction {
  t_tx : Tx;
  t_repositories : ref
}.

(** [type UnitOfWork struct]. *)
Record UnitOfWork : Type := mkUnitOfWork {
  u_db : DB;
  u_repositories : ref
}.

(** The calls that leave the package, in the order they are made. *)
Inductive Event : Type :=
  | EvBeginTx (d : DB) (c : Ctx)
  | EvNewTransaction (t : Transaction)
  | EvCallFn (c : Ctx) (t : Transaction)
  | EvFactory (n : RepositoryName) (t : Tx)
  | EvCommit (t : Tx)
  | EvRollback (t : Tx).

Record World : Type := mkWorld {
  maps : gmap loc (gmap RepositoryName RepositoryFactory);
  uows : gmap loc UnitOfWork;
  env : E;
  log : list Event
}.

Definition set_maps (f : gmap loc (gmap RepositoryName RepositoryFactory)) (w : World) : World :=
  mkWorld f (uows w) (env w) (log w).

Definition set_uows (f : gmap loc UnitOfWork) (w : World) : World :=
  mkWorld (maps w) f (env w) (log w).

Definition set_env (e : E) (w : World) : World :=
  mkWorld (maps w) (uows w) e (log w).

Definition log_event (ev : Event) (w : World) : World :=
  mkWorld (maps w) (uows w) (env w) (log w ++ [ev]).

(** ** The monad of Go code: state, and panics that unwind *)

Definition M (A : Type) : Type := World → Res A * World.

#[global] Instance M_ret : MRet M := λ A a w, (Ret a, w).

#[global] Instance M_bind : MBind M := λ A B f m w,
  match m w with
  | (Ret a, w') => f a w'
  | (Panic p, w') => (Panic p, w')
  end.

Definition panic {A : Type} (p : panic_value) : M A := λ w, (Panic p, w).

(** The call of a closure on a transaction: any Go code.  It may return a
    repository (nil included) or panic, and it may act on the whole world:
    the outside world, and the store too, since a closure can hold a
    pointer to a unit of work. *)
Class Closures : Type := {
  call_closure : Fn → Tx → M Repository
}.

Context {closures : Closures}.

(** [defer cleanup] at the head of [body]: [cleanup] runs when [body] is
    left, by a return or by a panic, and its results are dropped; the
    outcome is [body]'s, unless [cleanup] itself panics. *)
Definition defer {A B : Type} (cleanup : M B) (body : M A) : M A := λ w,
  let '(r, w1) := body w in
  match cleanup w1 with
  | (Ret _, w2) => (r, w2)
  | (Panic p, w2) => (Panic p, w2)
  end.

(** ** Go maps in the store *)

(** [v, ok := m[k]]: reading a nil map finds nothing. *)
Definition lookup_binding (w : World) (m : ref) (k : RepositoryName) : option RepositoryFactory :=
  l ← m; r ← maps w !! l; r !! k.

Definition map_get (m : ref) (k : RepositoryName) : M (option RepositoryFactory) :=
  λ w, (Ret (lookup_binding w m k), w).

(** [m[k] = v]: writing to a nil map panics. *)
Definition map_set (m : ref) (k : RepositoryName) (v : RepositoryFactory) : M unit := λ w,
  match m with
  | None => (Panic NilMapAssignment, w)
  | Some l =>
      match maps w !! l with
      | None => (Panic NilMapAssignment, w)
      | Some r => (Ret tt, set_maps (<[l := <[k := v]> r]> (maps w)) w)
      end
  end.

(** [delete(m, k)]: a no-op on a nil map and on an absent key. *)
Definition map_delete (m : ref) (k : RepositoryName) : M unit := λ w,
  match m with
  | None => (Ret tt, w)
  | Some l => (Ret tt, set_maps (alter (delete k) l (maps w)) w)
  end.

(** [make(map[RepositoryName]RepositoryFactory)]: a new, empty map. *)
Definition make_map : M ref := λ w,
  let l := fresh (dom (maps w)) in
  (Ret (Some l), set_maps (<[l := ∅]> (maps w)) w).

(** ** Field access through a [*UnitOfWork] *)

Definition get_db (u : ref) : M DB := λ w,
  match u ≫= (uows w !!.) with
  | Some uo => (Ret (u_db uo), w)
  | None => (Panic NilPointerDereference, w)
  end.

Definition get_repositories (u : ref) : M ref := λ w,
  match u ≫= (uows w !!.) with
  | Some uo => (Ret (u_repositories uo), w)
  | None => (Panic NilPointerDereference, w)
  end.

Definition set_repositories (u : ref) (m : ref) : M unit := λ w,
  match u with
  | Some p =>
      match uows w !! p with
      | Some uo => (Ret tt, set_uows (<[p := mkUnitOfWork (u_db uo) m]> (uows w)) w)
      | None => (Panic NilPointerDereference, w)
      end
  | None => (Panic NilPointerDereference, w)
  end.

(** [&UnitOfWork{...}]: a pointer to a new struct. *)
Definition new_UnitOfWork (uo : UnitOfWork) : M ref := λ w,
  let p := fresh (dom (uows w)) in
  (Ret (Some p), set_uows (<[p := uo]> (uows w)) w).

(** ** Calls that leave the package *)

(** [repository(t.tx)]: the call of a func value.  Calling nil panics;
    calling a closure enters its code. *)
Definition call_factory (n : RepositoryName) (f : RepositoryFactory) (t : Tx) : M Repository :=
  match f with
  | None => panic NilPointerDereference
  | Some c => λ w, call_closure c t (log_event (EvFactory n t) w)
  end.

Definition call_BeginTx (d : DB) (c : Ctx) : M (Tx * error) := λ w,
  let '(r, e) := BeginTx d c (env w) in
  (Ret r, set_env e (log_event (EvBeginTx d c) w)).

Definition call_Commit (t : Tx) : M error := λ w,
  let '(r, e) := Commit t (env w) in
  (Ret r, set_env e (log_event (EvCommit t) w)).

Definition call_Rollback (t : Tx) : M error := λ w,
  let '(r, e) := Rollback t (env w) in
  (Ret r, set_env e (log_event (EvRollback t) w)).

Definition call_fn (fn : Ctx → Transaction → M error) (c : Ctx) (t : Transaction) : M error :=
  λ w, fn c t (log_event (EvCallFn c t) w).

(** ** The package *)

(** [type TX interface { Get(name RepositoryName) (Repository, error) }] *)
Class TX (A : Type) : Type := {
  Get : A → RepositoryName → M (Repository * error)
}.

(** [func NewTransaction(tx *sql.Tx, repositories map[...]...) *Transaction] *)
Definition NewTransaction (tx : Tx) (repositories : ref) : M Transaction := λ w,
  let t := mkTransaction tx repositories in
  (Ret t, log_event (EvNewTransaction t) w).

(** [func (t *Transaction) Get(name RepositoryName) (Repository, error)] *)
Definition Transaction_Get (t : Transaction) (name : RepositoryName) : M (Repository * error) :=
  found ← map_get (t_repositories t) name;
  match found with
  | Some repository =>
      r ← call_factory name repository (t_tx t);
      mret (r, None)
  | None => mret (None, Some ErrRepositoryNotRegistered)
  end.

#[global] Instance Transaction_TX : TX Transaction := {| Get := Transaction_Get |}.

(** What [GetAs] needs of its type parameter [T]: the zero value of [T] and
    the type assertion [repository.(T)]. *)
Class GoType (T : Type) : Type := {
  zero : T;
  type_assert : Repository → option T
}.

(** [func GetAs[T any](t TX, name RepositoryName) (T, error)] *)
Definition GetAs {A T : Type} `{!TX A} `{!GoType T} (t : A) (name : RepositoryName) : M (T * error) :=
  '(repository, err) ← Get t name;
  match err with
  | Some _ => mret (zero, err)
  | None =>
      match type_assert repository with
      | None => mret (zero, Some ErrInvalidRepositoryType)
      | Some res => mret (res, None)
      end
  end.

(** [func NewUnitOfWork(db *sql.DB) *UnitOfWork] *)
Definition NewUnitOfWork (db : DB) : M ref :=
  m ← make_map;
  new_UnitOfWork (mkUnitOfWork db m).

(** [func (u *UnitOfWork) Register(name, factory) error] *)
Definition Register (u : ref) (name : RepositoryName) (factory : RepositoryFactory) : M error :=
  m ← get_repositories u;
  found ← map_get m name;
  match found with
  | Some _ => mret (Some ErrRepositoryAlreadyRegistered)
  | None =>
      m' ← get_repositories u;
      map_set m' name factory;;
      mret None
  end.

(** [func (u *UnitOfWork) Remove(name RepositoryName) error] *)
Definition Remove (u : ref) (name : RepositoryName) : M error :=
  m ← get_repositories u;
  found ← map_get m name;
  match found with
  | None => mret (Some ErrRepositoryNotRegistered)
  | Some _ =>
      m' ← get_repositories u;
      map_delete m' name;;
      mret None
  end.

(** [func (u *UnitOfWork) Has(name RepositoryName) bool] *)
Definition Has (u : ref) (name : RepositoryName) : M bool :=
  m ← get_repositories u;
  found ← map_get m name;
  mret (bool_decide (is_Some found)).

(** [func (u *UnitOfWork) Clear()] *)
Definition Clear (u : ref) : M unit :=
  m ← make_map;
  set_repositories u m.

(** [func (u *UnitOfWork) Do(ctx, fn) error] *)
Definition Do (u : ref) (ctx : Ctx) (fn : Ctx → Transaction → M error) : M error :=
  d ← get_db u;
  '(tx, err) ← call_BeginTx d ctx;
  match err with
  | Some _ => mret err
  | None =>
      defer (call_Rollback tx) (
        m ← get_repositories u;
        t ← NewTransaction tx m;
        err ← call_fn fn ctx t;
        match err with
        | Some _ => mret err
        | None => call_Commit tx
        end)
  end.

(** ** Callers

    The way the README and the tests use a scope inside [Do]:
    [repository, err := tx.Get(name); if err != nil { return err }; ...].
    [k] is the rest of the caller's function. *)
Definition with_repository (name : RepositoryName) (k : Ctx → Repository → M error)
    : Ctx → Transaction → M error := λ ctx t,
  '(repository, err) ← Get t name;
  match err with
  | Some _ => mret err
  | None => k ctx repository
  end.

(** What [Get] does once it has found the func value [f] under [n]: it
    calls [f] on the handle and returns the result with a nil error. *)
Definition resolve_with (n : RepositoryName) (f : RepositoryFactory) (t : Tx)
    : M (Repository * error) :=
  r ← call_factory n f t;
  mret (r, None).

End Uow.

(** The bindings a [*UnitOfWork] currently holds: [None] when the pointer
    is nil or the struct's map is nil. *)
Definition registry_of {DB Tx Ctx E Fn : Type} (w : @World DB Tx Ctx E Fn) (u : ref)
    : option (gmap RepositoryName (@RepositoryFactory Fn)) :=
  p ← u; uo ← uows w !! p; l ← u_repositories uo; maps w !! l.

(** The world in which [Do] hands control to [fn]: the transaction [tx] has
    begun, leaving the outside world in [e1], and the scope [t] is built. *)
Definition fn_entry {DB Tx Ctx E Fn : Type} (w : @World DB Tx Ctx E Fn)
    (d : DB) (ctx : Ctx) (t : Transaction) (e1 : E) : @World DB Tx Ctx E Fn :=
  mkWorld (maps w) (uows w) e1
          (log w ++ [EvBeginTx d ctx; EvNewTransaction t; EvCallFn ctx t]).

(** The world [Do] leaves when its deferred rollback has run on [w2]. *)
Definition rolled_back {DB Tx Ctx E Fn : Type} `{!SqlDriver DB Tx Ctx E}
    (tx : Tx) (w2 : @World DB Tx Ctx E Fn) : @World DB Tx Ctx E Fn :=
  mkWorld (maps w2) (uows w2) (Rollback tx (env w2)).2 (log w2 ++ [EvRollback tx]).

(** What [Do] returns, and the world it leaves, when [fn] has come back
    with [out] in the world [w2]: the commit if [fn] returned nil, and the
    deferred rollback in every case. *)
Definition Do_exit {DB Tx Ctx E Fn : Type} `{!SqlDriver DB Tx Ctx E}
    (tx : Tx) (out : Res error) (w2 : @World DB Tx Ctx E Fn)
    : Res error * @World DB Tx Ctx E Fn :=
  match out with
  | Ret None =>
      (Ret (Commit tx (env w2)).1,
       mkWorld (maps w2) (uows w2) (Rollback tx (Commit tx (env w2)).2).2
               (log w2 ++ [EvCommit tx; EvRollback tx]))
  | _ => (out, rolled_back tx w2)
  end.

(** How many commits, and how many rollbacks, a stretch of the log holds. *)
Definition is_commit {DB Tx Ctx : Type} (ev : @Event DB Tx Ctx) : bool :=
  match ev with EvCommit _ => true | _ => false end.

Definition is_rollback {DB Tx Ctx : Type} (ev : @Event DB Tx Ctx) : bool :=
  match ev with EvRollback _ => true | _ => false end.

Definition count_commits {DB Tx Ctx : Type} (evs : list (@Event DB Tx Ctx)) : nat :=
  length (filter (λ ev, is_commit ev = true) evs).

Definition count_rollbacks {DB Tx Ctx : Type} (evs : list (@Event DB Tx Ctx)) : nat :=
  length (filter (λ ev, is_rollback ev = true) evs).

(** The contract of a transactional handle that [Do] leans on: once
    [Commit] has succeeded, [Rollback] changes nothing. *)
Definition rollback_after_commit_is_noop {DB Tx Ctx E : Type} `{!SqlDriver DB Tx Ctx E} : Prop :=
  ∀ (tx : Tx) (e e' : E), Commit tx e = (None, e') → (Rollback tx e').2 = e'.

(** ** A small transactional resource, to run the package on

    A database with one table of rows.  A transaction buffers its writes;
    commit publishes them, rollback drops them, and a transaction that is
    finished answers every later commit or rollback with an error and
    changes nothing, as [database/sql] documents for [ErrTxDone]. *)
Module Demo.

Record Env : Type := mkEnv {
  next_tx : nat;
  finished : list nat;
  pending : list (nat * string);
  table : list string;
  allocated : nat
}.

(** A [*sql.DB]: whether the server can be reached, and whether it accepts
    commits. *)
Record Db : Type := mkDb {
  reachable : bool;
  commits : bool
}.

(** A repository object: its dynamic type, the transaction it was built
    for, and the address it was allocated at. *)
Record Object : Type := mkObject {
  dyn_type : string;
  bound_tx : nat;
  address : nat
}.

Definition ErrTxDone : error_value :=
  ErrForeign "sql: transaction has already been committed or rolled back".

Definition ErrConnection : error_value := ErrForeign "dial tcp: connection refused".

Definition ErrCommit : error_value := ErrForeign "commit refused".

Definition is_finished (t : nat) (e : Env) : bool := bool_decide (t ∈ finished e).

Definition drop_pending (t : nat) (e : Env) : list (nat * string) :=
  filter (λ p, p.1 ≠ t) (pending e).

Definition writes_of (t : nat) (e : Env) : list string :=
  (filter (λ p, p.1 = t) (pending e)).*2.

(** Transaction handles are even when the server accepts commits and odd
    when it refuses them, so that the handle alone decides [Commit]. *)
Definition begin_tx (d : Db) (c : unit) (e : Env) : (nat * error) * Env :=
  if reachable d
  then let t := 2 * next_tx e + (if commits d then 0 else 1) in
       ((t, None), mkEnv (S (next_tx e)) (finished e) (pending e) (table e) (allocated e))
  else ((0, Some ErrConnection), e).

Definition commit_tx (t : nat) (e : Env) : error * Env :=
  if is_finished t e then (Some ErrTxDone, e)
  else if Nat.even t
  then (None, mkEnv (next_tx e) (t :: finished e) (drop_pending t e)
                    (table e ++ writes_of t e) (allocated e))
  else (Some ErrCommit, mkEnv (next_tx e) (t :: finished e) (drop_pending t e)
                              (table e) (allocated e)).

Definition rollback_tx (t : nat) (e : Env) : error * Env :=
  if is_finished t e then (Some ErrTxDone, e)
  else (None, mkEnv (next_tx e) (t :: finished e) (drop_pending t e)
                    (table e) (allocated e)).

#[global] Instance driver : SqlDriver Db nat unit Env :=
  {| BeginTx := begin_tx; Commit := commit_tx; Rollback := rollback_tx |}.

(** The closures of the examples: the two factories of the tests, and one
    that fails. *)
Inductive Closure : Type :=
  | ProductFn
  | OrderFn
  | FailingFn.

Abbreviation World := (@World Db nat unit Env Closure).
Abbreviation M := (@M Db nat unit Env Closure).
Abbreviation Factory := (@RepositoryFactory Closure).

(** [return NewProductRepository(tx)]: a new object, at a new address,
    holding [tx]. *)
Definition new_object (ty : string) (t : nat) : M (option Object) := λ w,
  (Ret (Some (mkObject ty t (allocated (env w)))),
   set_env (mkEnv (next_tx (env w)) (finished (env w)) (pending (env w))
                  (table (env w)) (S (allocated (env w)))) w).

#[global] Instance closures : @Closures Db nat unit Env Object Closure :=
  {| call_closure := λ c t,
       match c with
       | ProductFn => new_object "*ProductRepository" t
       | OrderFn => new_object "*OrderRepository" t
       | FailingFn => panic (UserPanic "no repository")
       end |}.

(** [func(tx *sql.Tx) Repository { return NewProductRepository(tx) }] *)
Definition NewProductRepository : Factory := Some ProductFn.

Definition NewOrderRepository : Factory := Some OrderFn.

Definition FailingRepository : Factory := Some FailingFn.

(** A nil func value. *)
Definition NilFactory : Factory := None.

(** The type parameter [*ProductRepository] of [GetAs]. *)
Record ProductRepository : Type := mkProductRepository { product_ptr : option Object }.

#[global] Instance ProductRepository_GoType : @GoType Object ProductRepository :=
  {| zero := mkProductRepository None;
     type_assert := λ r,
       match r with
       | Some o => if String.eqb (dyn_type o) "*ProductRepository"
                   then Some (mkProductRepository (Some o)) else None
       | None => None
       end |}.

Definition e0 : Env := mkEnv 0 [] [] [] 0.

Definition w0 : World := mkWorld ∅ ∅ e0 [].

Definition good_db : Db := mkDb true true.
Definition down_db : Db := mkDb false true.
Definition stubborn_db : Db := mkDb true false.

(** A world with one unit of work on [d], with both repositories
    registered, and the pointer to it. *)
Definition setup (d : Db) : Res ref * World :=
  (u ← NewUnitOfWork d;
   Register u "ProductRepository" NewProductRepository;;
   Register u "OrderRepository" NewOrderRepository;;
   mret u) w0.

Definition the_uow : ref := Some 0.
Definition the_scope : Transaction := mkTransaction 7 (Some 0).

(** An insert through a repository: a write buffered in its transaction. *)
Definition insert (t : nat) (row : string) : M unit := λ w,
  (Ret tt, set_env (mkEnv (next_tx (env w)) (finished (env w))
                          (pending (env w) ++ [(t, row)]) (table (env w))
                          (allocated (env w))) w).

Definition fn_save (row : string) (c : unit) (t : Transaction) : M error :=
  '(_, err) ← Get t "ProductRepository";
  match err with
  | Some _ => mret err
  | None => insert (t_tx t) row;; mret None
  end.

Definition ErrForeignKey : error_value := ErrForeign "foreign key constraint fails".

Definition fn_fail (row : string) (c : unit) (t : Transaction) : M error :=
  '(_, err) ← Get t "ProductRepository";
  match err with
  | Some _ => mret err
  | None => insert (t_tx t) row;; mret (Some ErrForeignKey)
  end.

Definition fn_panic (row : string) (c : unit) (t : Transaction) : M error :=
  insert (t_tx t) row;; panic (UserPanic "boom").

(** A unit-of-work function that clears the registry of the unit of work
    it runs in, and then looks a repository up through its scope. *)
Definition fn_clear_then_get (c : unit) (t : Transaction) : M error :=
  Clear the_uow;;
  '(_, err) ← Get t "ProductRepository";
  mret err.

(** The worlds the examples start from. *)
Definition w_good : World := (setup good_db).2.
Definition w_down : World := (setup down_db).2.
Definition w_stubborn : World := (setup stubborn_db).2.

Definition both : gmap RepositoryName Factory :=
  <["OrderRepository" := NewOrderRepository]>
    (<["ProductRepository" := NewProductRepository]> ∅).

Definition uow_on (d : Db) : @UnitOfWork Db := mkUnitOfWork d (Some 0).

(** The scope [Do] builds for its first transaction on [d], and the
    outside world when that transaction has begun. *)
Definition scope_of (d : Db) : Transaction := mkTransaction (begin_tx d tt e0).1.1 (Some 0).
Definition e_begun : Env := mkEnv 1 [] [] [] 0.

(** A handle whose [Rollback] always fails and does nothing; it begins and
    commits as [driver] does. *)
Definition ErrRollback : error_value := ErrForeign "rollback refused".

Definition driver_failing_rollback : SqlDriver Db nat unit Env :=
  {| BeginTx := begin_tx; Commit := commit_tx;
     Rollback := λ t e, (Some ErrRollback, e) |}.

(** An implementation of [TX] other than [*Transaction]: a scope that
    cannot reach its registry. *)
Record BrokenScope : Type := mkBrokenScope { broken_with : error_value }.

#[global] Instance BrokenScope_TX : @TX Db nat unit Env Object Closure BrokenScope :=
  {| Get := λ t _, mret (None, Some (broken_with t)) |}.

(** Two units of work, the second with one repository registered. *)
Definition w_two : World :=
  ((u1 ← NewUnitOfWork good_db;
    u2 ← NewUnitOfWork good_db;
    Register u2 "OrderRepository" NewOrderRepository;;
    mret (u1, u2)) w0).2.

Definition other_uow : ref := Some 1.

(** The world of [setup] with two more registrations: a nil func value and
    a factory that panics.  [Register] takes both. *)
Definition w_odd : World :=
  ((Register the_uow "NilRepository" NilFactory;;
    Register the_uow "FailingRepository" FailingRepository) w_good).2.


(** A world whose one unit of work is the zero value of the struct. *)
Definition w_zero : World := mkWorld ∅ {[ 0 := mkUnitOfWork good_db None ]} e0 [].

(** The rest of a caller's function: save a row through the repository. *)
Definition save_through (row : string) (c : unit) (r : option Object) : M error :=
  match r with
  | Some o => insert (bound_tx o) row;; mret None
  | None => mret (Some (ErrForeign "invalid type"))
  end.

End Demo.

(** * Properties *)

Section UowTheory.

Context {DB Tx Ctx E Obj Fn : Type} {driver : SqlDriver DB Tx Ctx E}.
Context {closures : @Closures DB Tx Ctx E Obj Fn}.

Local Abbreviation World := (@World DB Tx Ctx E Fn).
Local Abbreviation M := (@M DB Tx Ctx E Fn).
Local Abbreviation RepositoryFactory := (@RepositoryFactory Fn).
Local Abbreviation Transaction := (@Transaction Tx).
Local Abbreviation UnitOfWork := (@UnitOfWork DB).
Local Abbreviation Registry := (gmap RepositoryName RepositoryFactory).

Implicit Types (w : World) (u m : ref) (n : RepositoryName) (f g : RepositoryFactory).
Implicit Types (r : Registry) (t : Transaction) (tx : Tx) (ctx : Ctx).

(** Unfolds one layer of the monad. *)
Local Ltac run :=
  unfold mbind, M_bind, mret, M_ret, map_get, map_set, map_delete,
    get_repositories, get_db, set_repositories; simpl.

(** ** Reading the store *)

Lemma registry_of_inv w u r :
  registry_of w u = Some r →
  ∃ p uo l, u = Some p ∧ uows w !! p = Some uo ∧
            u_repositories uo = Some l ∧ maps w !! l = Some r.
Proof.
  unfold registry_of. destruct u as [p|]; simpl; [|done].
  destruct (uows w !! p) as [uo|] eqn:Hp; simpl; [|done].
  destruct (u_repositories uo) as [l|] eqn:Hl; simpl; [|done].
  intros Hr. by exists p, uo, l.
Qed.

Lemma lookup_binding_registry w u r n p uo :
  u = Some p → uows w !! p = Some uo → registry_of w u = Some r →
  lookup_binding w (u_repositories uo) n = r !! n.
Proof.
  intros -> Hp. unfold registry_of, lookup_binding. simpl. rewrite Hp. simpl.
  destruct (u_repositories uo) as [l|]; simpl; [|done]. by intros ->.
Qed.

Lemma Has_registry w u r n :
  registry_of w u = Some r → Has u n w = (Ret (bool_decide (is_Some (r !! n))), w).
Proof.
  intros Hr. destruct (registry_of_inv _ _ _ Hr) as (p & uo & l & -> & Hp & Hl & Hm).
  unfold Has. run. rewrite Hp. simpl.
  by rewrite (lookup_binding_registry w (Some p) r n p uo).
Qed.

Lemma Has_bound w u r n g :
  registry_of w u = Some r → r !! n = Some g → Has u n w = (Ret true, w).
Proof.
  intros Hr Hn. rewrite (Has_registry _ _ _ _ Hr), Hn. by rewrite bool_decide_eq_true_2.
Qed.

Lemma Has_unbound w u r n :
  registry_of w u = Some r → r !! n = None → Has u n w = (Ret false, w).
Proof.
  intros Hr Hn. rewrite (Has_registry _ _ _ _ Hr), Hn.
  rewrite bool_decide_eq_false_2; [done|]. by intros [? ?].
Qed.

(** Writing [r'] into the map of a live unit of work. *)
Lemma registry_of_set_maps w p uo l r' :
  uows w !! p = Some uo → u_repositories uo = Some l →
  registry_of (set_maps (<[l := r']> (maps w)) w) (Some p) = Some r'.
Proof.
  intros Hp Hl. unfold registry_of. simpl. rewrite Hp. simpl. rewrite Hl. simpl.
  apply lookup_insert_eq.
Qed.

(** A new map does not disturb what any reference resolves to. *)
Lemma lookup_binding_make_map w m n :
  lookup_binding (make_map w).2 m n = lookup_binding w m n.
Proof.
  unfold lookup_binding, make_map. simpl. destruct m as [l|]; simpl; [|done].
  destruct (decide (l = fresh (dom (maps w)))) as [->|Hne].
  - rewrite lookup_insert_eq. simpl.
    assert (maps w !! fresh (dom (maps w)) = None) as ->; [|done].
    apply not_elem_of_dom, is_fresh.
  - by rewrite lookup_insert_ne.
Qed.

(** ** Lookup through a scope *)

Lemma Get_found w t n f :
  lookup_binding w (t_repositories t) n = Some f →
  Get t n w = resolve_with n f (t_tx t) w.
Proof.
  intros Hn. simpl. unfold Transaction_Get, resolve_with. run. by rewrite Hn.
Qed.

Lemma Get_unbound w t n :
  lookup_binding w (t_repositories t) n = None →
  Get t n w = (Ret (None, Some ErrRepositoryNotRegistered), w).
Proof. intros Hn. simpl. unfold Transaction_Get. run. by rewrite Hn. Qed.

(** The three ways the call of a func value ends. *)
Lemma resolve_with_nil n tx w :
  resolve_with n None tx w = (Panic NilPointerDereference, w).
Proof. reflexivity. Qed.

Lemma resolve_with_ret n (c : Fn) tx w (r : Repository) w1 :
  call_closure c tx (log_event (EvFactory n tx) w) = (Ret r, w1) →
  resolve_with n (Some c) tx w = (Ret (r, None), w1).
Proof. intros Hc. unfold resolve_with, call_factory. run. by rewrite Hc. Qed.

Lemma resolve_with_panic n (c : Fn) tx w pv w1 :
  call_closure c tx (log_event (EvFactory n tx) w) = (Panic pv, w1) →
  resolve_with n (Some c) tx w = (Panic pv, w1).
Proof. intros Hc. unfold resolve_with, call_factory. run. by rewrite Hc. Qed.

(** However the call ends, it does not end in an error return. *)
Lemma resolve_with_no_error n f tx w (r : Repository) e w1 :
  resolve_with n f tx w = (Ret (r, e), w1) → e = None.
Proof.
  unfold resolve_with, call_factory. run. destruct f as [c|]; simpl; [|done].
  destruct (call_closure c tx _) as [[r0|pv] w']; simpl; [|done]. by intros [= _ <- _].
Qed.

(** ** The registry, operation by operation *)

(** The unit of work that [NewUnitOfWork] returns is live and its registry
    is an empty map. *)
Lemma NewUnitOfWork_registry (db : DB) w :
  ∃ p w', NewUnitOfWork db w = (Ret (Some p), w') ∧
          registry_of w' (Some p) = Some ∅ ∧ uows w !! p = None.
Proof.
  eexists _, _. split; [reflexivity|]. split.
  - unfold registry_of. simpl. rewrite lookup_insert_eq. simpl. apply lookup_insert_eq.
  - simpl. apply not_elem_of_dom, is_fresh.
Qed.

(** The zero value of the struct has a nil map: registering on it panics,
    which is why the registry properties speak of a unit of work whose map
    exists, as [NewUnitOfWork] and [Clear] make it. *)
Lemma Register_nil_map w p uo n f :
  uows w !! p = Some uo → u_repositories uo = None →
  Register (Some p) n f w = (Panic NilMapAssignment, w).
Proof.
  intros Hp Hl. unfold Register. run. rewrite Hp. simpl. rewrite Hl. simpl.
  rewrite Hp. simpl. by rewrite Hl.
Qed.

Lemma Register_bound w u r n f g :
  registry_of w u = Some r → r !! n = Some g →
  Register u n f w = (Ret (Some ErrRepositoryAlreadyRegistered), w).
Proof.
  intros Hr Hn. destruct (registry_of_inv _ _ _ Hr) as (p & uo & l & -> & Hp & Hl & Hm).
  unfold Register. run. rewrite Hp. simpl.
  by rewrite (lookup_binding_registry w (Some p) r n p uo), Hn.
Qed.

Lemma Register_unused w u r n f :
  registry_of w u = Some r → r !! n = None →
  ∃ w', Register u n f w = (Ret None, w') ∧
        registry_of w' u = Some (<[n := f]> r) ∧
        uows w' = uows w ∧ env w' = env w ∧ log w' = log w.
Proof.
  intros Hr Hn. destruct (registry_of_inv _ _ _ Hr) as (p & uo & l & -> & Hp & Hl & Hm).
  eexists. split.
  - unfold Register. run. rewrite Hp. simpl.
    rewrite (lookup_binding_registry w (Some p) r n p uo), Hn by done.
    rewrite Hp. simpl. rewrite Hl, Hm. reflexivity.
  - split; [|done]. by apply (registry_of_set_maps w p uo).
Qed.

Lemma Register_unused_run w p uo l r n f :
  uows w !! p = Some uo → u_repositories uo = Some l → maps w !! l = Some r →
  r !! n = None →
  Register (Some p) n f w = (Ret None, set_maps (<[l := <[n := f]> r]> (maps w)) w).
Proof.
  intros Hp Hl Hm Hn. unfold Register. run. rewrite Hp. simpl.
  unfold lookup_binding. rewrite Hl. simpl. rewrite Hm. simpl. rewrite Hn.
  rewrite Hp. simpl. by rewrite Hl, Hm.
Qed.

Lemma Remove_absent w u r n :
  registry_of w u = Some r → r !! n = None →
  Remove u n w = (Ret (Some ErrRepositoryNotRegistered), w).
Proof.
  intros Hr Hn. destruct (registry_of_inv _ _ _ Hr) as (p & uo & l & -> & Hp & Hl & Hm).
  unfold Remove. run. rewrite Hp. simpl.
  by rewrite (lookup_binding_registry w (Some p) r n p uo), Hn.
Qed.

Lemma Remove_bound w u r n g :
  registry_of w u = Some r → r !! n = Some g →
  ∃ w', Remove u n w = (Ret None, w') ∧
        registry_of w' u = Some (delete n r) ∧
        uows w' = uows w ∧ env w' = env w ∧ log w' = log w.
Proof.
  intros Hr Hn. destruct (registry_of_inv _ _ _ Hr) as (p & uo & l & -> & Hp & Hl & Hm).
  eexists. split.
  - unfold Remove. run. rewrite Hp. simpl.
    rewrite (lookup_binding_registry w (Some p) r n p uo), Hn by done.
    rewrite Hp. simpl. rewrite Hl. reflexivity.
  - split; [|done]. unfold registry_of. simpl. rewrite Hp. simpl. rewrite Hl. simpl.
    by rewrite lookup_alter_eq, Hm.
Qed.

Lemma Clear_run w p uo :
  uows w !! p = Some uo →
  ∃ w', Clear (Some p) w = (Ret tt, w') ∧
        registry_of w' (Some p) = Some ∅ ∧
        (∀ m n, lookup_binding w' m n = lookup_binding w m n) ∧
        env w' = env w ∧ log w' = log w.
Proof.
  intros Hp. eexists. split.
  { unfold Clear, make_map. run. rewrite Hp. reflexivity. }
  split; [|split; [|done]].
  - unfold registry_of. simpl. rewrite lookup_insert_eq. simpl. apply lookup_insert_eq.
  - intros m n. apply (lookup_binding_make_map w).
Qed.


(** ** The registry *)

(** C6. [Register(n, f)] on a unit of work whose registry holds [r]: when
    [n] is unused it returns nil, the registry becomes [r] with [n] bound
    to [f] (every other binding as it was), [Has(n)] is then true and a
    second [Register(n, _)] fails; when [n] is already bound it returns
    [ErrRepositoryAlreadyRegistered] and leaves the whole world, and so the
    existing binding, unchanged. *)
Theorem Register_spec w u r n f :
  registry_of w u = Some r →
  (r !! n = None →
     ∃ w', Register u n f w = (Ret None, w') ∧
           registry_of w' u = Some (<[n := f]> r) ∧
           Has u n w' = (Ret true, w') ∧
           (∀ g, Register u n g w' = (Ret (Some ErrRepositoryAlreadyRegistered), w')) ∧
           uows w' = uows w ∧ env w' = env w ∧ log w' = log w) ∧
  (∀ g, r !! n = Some g →
     Register u n f w = (Ret (Some ErrRepositoryAlreadyRegistered), w) ∧
     registry_of w u = Some r ∧ Has u n w = (Ret true, w)).
Proof.
  intros Hr. split.
  - intros Hn. destruct (Register_unused w u r n f Hr Hn) as (w' & Hreg & Hr' & Hrest).
    exists w'. split; [done|]. split; [done|].
    split; [apply (Has_bound w' u _ n f Hr'), lookup_insert_eq|].
    split; [|done].
    intros g. apply (Register_bound w' u _ n g f Hr'), lookup_insert_eq.
  - intros g Hn. split; [by apply (Register_bound w u r n f g)|].
    split; [done|]. by apply (Has_bound w u r n g).
Qed.

(** C8. [Remove(n)] on a unit of work whose registry holds [r]: when [n] is
    bound it returns nil and the registry becomes [r] without [n]; when [n]
    is absent it returns [ErrRepositoryNotRegistered] and the world is
    unchanged. *)
Theorem Remove_spec w u r n :
  registry_of w u = Some r →
  (∀ g, r !! n = Some g →
     ∃ w', Remove u n w = (Ret None, w') ∧
           registry_of w' u = Some (delete n r) ∧
           Has u n w' = (Ret false, w') ∧
           uows w' = uows w ∧ env w' = env w ∧ log w' = log w) ∧
  (r !! n = None →
     Remove u n w = (Ret (Some ErrRepositoryNotRegistered), w)).
Proof.
  intros Hr. split; [|by apply Remove_absent].
  intros g Hn. destruct (Remove_bound w u r n g Hr Hn) as (w' & Hrem & Hr' & Hrest).
  exists w'. split; [done|]. split; [done|]. split; [|done].
  apply (Has_unbound w' u _ n Hr'), lookup_delete_eq.
Qed.

(** C9. [Clear()] on a live unit of work returns normally whatever its
    registry held; afterwards the registry is an empty (non-nil) map,
    [Has(n)] is false for every name, and [Register] of any name succeeds. *)
Theorem Clear_spec w p uo :
  uows w !! p = Some uo →
  ∃ w', Clear (Some p) w = (Ret tt, w') ∧
        registry_of w' (Some p) = Some ∅ ∧
        (∀ n, Has (Some p) n w' = (Ret false, w')) ∧
        (∀ n f, ∃ w'', Register (Some p) n f w' = (Ret None, w'') ∧
                       Has (Some p) n w'' = (Ret true, w'')) ∧
        env w' = env w ∧ log w' = log w.
Proof.
  intros Hp. destruct (Clear_run w p uo Hp) as (w' & Hclear & Hr' & _ & Hrest).
  exists w'. split; [done|]. split; [done|]. split.
  { intros n. apply (Has_unbound w' (Some p) ∅ n Hr'), lookup_empty. }
  split; [|done].
  intros n f.
  destruct (Register_unused w' (Some p) ∅ n f Hr' (lookup_empty n)) as (w'' & Hreg & Hr'' & _).
  exists w''. split; [done|]. apply (Has_bound w'' (Some p) _ n f Hr''), lookup_insert_eq.
Qed.


(** ** The scope *)

(** C5, as the code has it.  [Get(n)] on a scope looks [n] up in the map
    the scope holds.  When [n] is bound to a closure, [Get] calls it with
    the scope's handle; when the call returns, [Get] returns its result
    with a nil error, and when it panics, so does [Get].  A second [Get(n)]
    looks the name up again and calls again, on the world the first call
    left: nothing is kept between calls.  When [n] is bound to a nil func
    value, [Get] panics.  When [n] is unbound the result is nil with
    [ErrRepositoryNotRegistered] and the world is unchanged. *)
Theorem Get_spec w t n :
  (∀ (c : Fn) (r : Repository) w1,
     lookup_binding w (t_repositories t) n = Some (Some c) →
     call_closure c (t_tx t) (log_event (EvFactory n (t_tx t)) w) = (Ret r, w1) →
     Get t n w = (Ret (r, None), w1) ∧
     ∀ (c' : Fn) (r' : Repository) w2,
       lookup_binding w1 (t_repositories t) n = Some (Some c') →
       call_closure c' (t_tx t) (log_event (EvFactory n (t_tx t)) w1) = (Ret r', w2) →
       (a ← Get t n; b ← Get t n; mret (a, b)) w
         = (Ret ((r, None), (r', None)), w2)) ∧
  (∀ (c : Fn) pv w1,
     lookup_binding w (t_repositories t) n = Some (Some c) →
     call_closure c (t_tx t) (log_event (EvFactory n (t_tx t)) w) = (Panic pv, w1) →
     Get t n w = (Panic pv, w1)) ∧
  (lookup_binding w (t_repositories t) n = Some None →
     Get t n w = (Panic NilPointerDereference, w)) ∧
  (lookup_binding w (t_repositories t) n = None →
     Get t n w = (Ret (None, Some ErrRepositoryNotRegistered), w)).
Proof.
  split; [|split; [|split]].
  - intros c r w1 Hn Hc.
    assert (Hget : Get t n w = (Ret (r, None), w1)).
    { rewrite (Get_found w t n _ Hn). by apply resolve_with_ret. }
    split; [done|]. intros c' r' w2 Hn' Hc'.
    unfold mbind, M_bind. rewrite Hget.
    rewrite (Get_found w1 t n _ Hn'), (resolve_with_ret n c' (t_tx t) w1 r' w2 Hc').
    reflexivity.
  - intros c pv w1 Hn Hc. rewrite (Get_found w t n _ Hn). by apply resolve_with_panic.
  - intros Hn. by rewrite (Get_found w t n _ Hn).
  - apply Get_unbound.
Qed.

(** C7. [GetAs[T](t, n)] on a scope does what [Get(n)] does and then the
    type assertion: it leaves the world exactly as [Get(n)] leaves it (it
    adds no call and no effect of its own); for an unbound [n] it returns
    the zero value with [ErrRepositoryNotRegistered]; when [Get] returns a
    repository, it returns that repository viewed as [T], or the zero
    value with [ErrInvalidRepositoryType] when the type assertion fails;
    and a panic of [Get] (a nil or panicking factory) goes on. *)
Theorem GetAs_spec {T : Type} `{!GoType (Obj := Obj) T} w t n :
  (GetAs t n w).2 = (Get t n w).2 ∧
  (lookup_binding w (t_repositories t) n = None →
     GetAs t n w = (Ret (zero, Some ErrRepositoryNotRegistered), w)) ∧
  (∀ (repo : Repository) w',
     Get t n w = (Ret (repo, None), w') →
     GetAs t n w =
       (match type_assert repo with
        | Some res => Ret (res, None)
        | None => Ret (zero, Some ErrInvalidRepositoryType)
        end, w')) ∧
  (∀ (c : Fn) (repo : Repository) w',
     lookup_binding w (t_repositories t) n = Some (Some c) →
     call_closure c (t_tx t) (log_event (EvFactory n (t_tx t)) w) = (Ret repo, w') →
     GetAs t n w =
       (match type_assert repo with
        | Some res => Ret (res, None)
        | None => Ret (zero, Some ErrInvalidRepositoryType)
        end, w')) ∧
  (∀ pv w', Get t n w = (Panic pv, w') → GetAs t n w = (Panic pv, w')).
Proof.
  assert (Hok : ∀ (repo : Repository) w',
            Get t n w = (Ret (repo, None), w') →
            GetAs t n w =
              (match type_assert repo with
               | Some res => Ret (res, None)
               | None => Ret (zero, Some ErrInvalidRepositoryType)
               end, w')).
  { intros repo w' Hget. unfold GetAs, mbind, M_bind. rewrite Hget. simpl.
    by destruct (type_assert repo). }
  split; [|split; [|split; [exact Hok|split]]].
  - unfold GetAs, mbind, M_bind.
    destruct (Get t n w) as [[[repo [e|]]|pv] w1]; simpl; [done| |done].
    by destruct (type_assert repo).
  - intros Hn. unfold GetAs, mbind, M_bind. by rewrite (Get_unbound w t n Hn).
  - intros c repo w' Hn Hc. apply Hok.
    rewrite (Get_found w t n _ Hn). by apply resolve_with_ret.
  - intros pv w' Hget. unfold GetAs, mbind, M_bind. by rewrite Hget.
Qed.

(** ** The runner, path by path *)

(** [Do], once the transaction has begun. *)
Lemma Do_begun w p uo ctx fn tx e1 :
  uows w !! p = Some uo →
  BeginTx (u_db uo) ctx (env w) = ((tx, None), e1) →
  Do (Some p) ctx fn w =
    defer (call_Rollback tx)
      (err ← fn ctx (mkTransaction tx (u_repositories uo));
       match err with Some _ => mret err | None => call_Commit tx end)
      (fn_entry w (u_db uo) ctx (mkTransaction tx (u_repositories uo)) e1).
Proof.
  intros Hp Hb. unfold Do, call_BeginTx, NewTransaction, call_fn, defer. run.
  rewrite Hp. simpl. rewrite Hb. simpl. rewrite Hp. simpl.
  unfold fn_entry, log_event. simpl. by rewrite <- !app_assoc.
Qed.

Lemma call_Rollback_run tx w2 :
  call_Rollback tx w2 = (Ret (Rollback tx (env w2)).1, rolled_back tx w2).
Proof. unfold call_Rollback, rolled_back. by destruct (Rollback tx (env w2)). Qed.

Lemma call_Commit_run tx w2 :
  call_Commit tx w2 = (Ret (Commit tx (env w2)).1,
                       mkWorld (maps w2) (uows w2) (Commit tx (env w2)).2
                               (log w2 ++ [EvCommit tx])).
Proof. unfold call_Commit. by destruct (Commit tx (env w2)). Qed.

Section Begun.

Variables (w : World) (p : loc) (uo : UnitOfWork) (ctx : Ctx).
Variables (fn : Ctx → Transaction → M error) (tx : Tx) (e1 : E) (w2 : World).
Hypothesis Hlive : uows w !! p = Some uo.
Hypothesis Hbegin : BeginTx (u_db uo) ctx (env w) = ((tx, None), e1).

Local Abbreviation scope := (mkTransaction tx (u_repositories uo)).

Lemma Do_run_error (e : error_value) :
  fn ctx scope (fn_entry w (u_db uo) ctx scope e1) = (Ret (Some e), w2) →
  Do (Some p) ctx fn w = (Ret (Some e), rolled_back tx w2).
Proof.
  intros Hfn. rewrite (Do_begun w p uo ctx fn tx e1 Hlive Hbegin).
  unfold defer, mbind, M_bind. rewrite Hfn. simpl. by rewrite call_Rollback_run.
Qed.

Lemma Do_run_panic (pv : panic_value) :
  fn ctx scope (fn_entry w (u_db uo) ctx scope e1) = (Panic pv, w2) →
  Do (Some p) ctx fn w = (Panic pv, rolled_back tx w2).
Proof.
  intros Hfn. rewrite (Do_begun w p uo ctx fn tx e1 Hlive Hbegin).
  unfold defer, mbind, M_bind. rewrite Hfn. simpl. by rewrite call_Rollback_run.
Qed.

Lemma Do_run_ok :
  fn ctx scope (fn_entry w (u_db uo) ctx scope e1) = (Ret None, w2) →
  Do (Some p) ctx fn w =
    (Ret (Commit tx (env w2)).1,
     mkWorld (maps w2) (uows w2) (Rollback tx (Commit tx (env w2)).2).2
             (log w2 ++ [EvCommit tx; EvRollback tx])).
Proof.
  intros Hfn. rewrite (Do_begun w p uo ctx fn tx e1 Hlive Hbegin).
  unfold defer, mbind, M_bind. rewrite Hfn. simpl.
  rewrite call_Commit_run, call_Rollback_run. unfold rolled_back. simpl.
  by rewrite <- app_assoc.
Qed.

End Begun.

(** ** The runner *)

(** C4. When [BeginTx] fails with [e], [Do] returns [e] as it is; the only
    call it has made is [BeginTx]: no scope is built, [fn] is not called
    (the result does not depend on [fn]), and neither [Commit] nor
    [Rollback] is called. *)
Theorem Do_begin_fails w p uo ctx fn tx e e1 :
  uows w !! p = Some uo →
  BeginTx (u_db uo) ctx (env w) = ((tx, Some e), e1) →
  Do (Some p) ctx fn w =
    (Ret (Some e),
     mkWorld (maps w) (uows w) e1 (log w ++ [EvBeginTx (u_db uo) ctx])) ∧
  ∀ fn', Do (Some p) ctx fn' w = Do (Some p) ctx fn w.
Proof.
  intros Hp Hb.
  assert (Hrun : ∀ k, Do (Some p) ctx k w =
            (Ret (Some e),
             mkWorld (maps w) (uows w) e1 (log w ++ [EvBeginTx (u_db uo) ctx]))).
  { intros k. unfold Do, call_BeginTx. run. rewrite Hp. simpl. by rewrite Hb. }
  split; [apply Hrun|]. intros fn'. by rewrite !Hrun.
Qed.

(** C1. When the transaction has begun and [fn] returns the error [e],
    leaving the world [w2], [Do] returns [e] itself and the only thing it
    does after [fn] is the deferred [Rollback]: the log grows by that one
    event, with no commit in it, and the outside world is the one
    [Rollback] makes of [fn]'s. *)
Theorem Do_fn_error w p uo ctx fn tx e1 e w2 :
  uows w !! p = Some uo →
  BeginTx (u_db uo) ctx (env w) = ((tx, None), e1) →
  fn ctx (mkTransaction tx (u_repositories uo))
     (fn_entry w (u_db uo) ctx (mkTransaction tx (u_repositories uo)) e1)
    = (Ret (Some e), w2) →
  ∃ w' evs, Do (Some p) ctx fn w = (Ret (Some e), w') ∧
        log w' = log w2 ++ evs ∧
        evs = [EvRollback tx] ∧
        count_commits evs = 0 ∧
        env w' = (Rollback tx (env w2)).2 ∧
        maps w' = maps w2 ∧ uows w' = uows w2.
Proof.
  intros Hp Hb Hfn. exists (rolled_back tx w2), [EvRollback tx]. split; [|done].
  by apply (Do_run_error w p uo ctx fn tx e1 w2).
Qed.

(** C2. When the transaction has begun and [fn] returns nil, leaving the
    world [w2], [Do] calls [Commit] exactly once, on [fn]'s world, and
    returns what [Commit] returned: nil when it succeeded, the commit error
    itself when it failed.  After [fn] the log grows by the commit and the
    deferred rollback. *)
Theorem Do_fn_ok w p uo ctx fn tx e1 w2 :
  uows w !! p = Some uo →
  BeginTx (u_db uo) ctx (env w) = ((tx, None), e1) →
  fn ctx (mkTransaction tx (u_repositories uo))
     (fn_entry w (u_db uo) ctx (mkTransaction tx (u_repositories uo)) e1)
    = (Ret None, w2) →
  ∃ w' evs, Do (Some p) ctx fn w = (Ret (Commit tx (env w2)).1, w') ∧
        log w' = log w2 ++ evs ∧
        evs = [EvCommit tx; EvRollback tx] ∧
        count_commits evs = 1 ∧
        env w' = (Rollback tx (Commit tx (env w2)).2).2 ∧
        maps w' = maps w2 ∧ uows w' = uows w2 ∧
        ((Commit tx (env w2)).1 = None → Do (Some p) ctx fn w = (Ret None, w')) ∧
        (∀ ce, (Commit tx (env w2)).1 = Some ce →
               Do (Some p) ctx fn w = (Ret (Some ce), w')).
Proof.
  intros Hp Hb Hfn.
  pose proof (Do_run_ok w p uo ctx fn tx e1 w2 Hp Hb Hfn) as Hrun.
  eexists _, [EvCommit tx; EvRollback tx]. split; [exact Hrun|]. simpl.
  do 6 (split; [done|]). rewrite Hrun. split.
  - by intros ->.
  - by intros ce ->.
Qed.

(** C3. When the transaction has begun, [Do] ends with a call of
    [Rollback] on it whatever [fn] does: when [fn] returns an error and
    when [fn] panics (the panic goes on to the caller), [Rollback] is the
    only call after [fn]; when [fn] returns nil, [Rollback] follows the
    commit, whether that succeeded or failed.  On a handle for which a
    rollback after a successful commit is a no-op, the outside world is
    then the one the commit left. *)
Theorem Do_rollback_on_every_exit w p uo ctx fn tx e1 out w2 :
  rollback_after_commit_is_noop →
  uows w !! p = Some uo →
  BeginTx (u_db uo) ctx (env w) = ((tx, None), e1) →
  fn ctx (mkTransaction tx (u_repositories uo))
     (fn_entry w (u_db uo) ctx (mkTransaction tx (u_repositories uo)) e1)
    = (out, w2) →
  ∃ res w' evs,
    Do (Some p) ctx fn w = (res, w') ∧
    log w' = log w2 ++ evs ∧
    last evs = Some (EvRollback tx) ∧
    count_rollbacks evs = 1 ∧
    match out with
    | Panic pv =>
        res = Panic pv ∧ evs = [EvRollback tx] ∧ env w' = (Rollback tx (env w2)).2
    | Ret (Some e) =>
        res = Ret (Some e) ∧ evs = [EvRollback tx] ∧ env w' = (Rollback tx (env w2)).2
    | Ret None =>
        res = Ret (Commit tx (env w2)).1 ∧ evs = [EvCommit tx; EvRollback tx] ∧
        env w' = (Rollback tx (Commit tx (env w2)).2).2 ∧
        ((Commit tx (env w2)).1 = None → env w' = (Commit tx (env w2)).2)
    end.
Proof.
  intros Hnoop Hp Hb Hfn.
  destruct out as [[e|]|pv].
  - exists (Ret (Some e)), (rolled_back tx w2), [EvRollback tx]. split; [|done].
    by apply (Do_run_error w p uo ctx fn tx e1 w2).
  - eexists _, _, [EvCommit tx; EvRollback tx].
    split; [by apply (Do_run_ok w p uo ctx fn tx e1 w2)|]. simpl.
    do 6 (split; [done|]). intros Hc.
    apply (Hnoop tx (env w2)). rewrite <- Hc. by destruct (Commit tx (env w2)).
  - exists (Panic pv), (rolled_back tx w2), [EvRollback tx]. split; [|done].
    by apply (Do_run_panic w p uo ctx fn tx e1 w2).
Qed.

(** * Further properties of the package *)

(** ** More on reading and writing the store *)

Lemma world_eta w : mkWorld (maps w) (uows w) (env w) (log w) = w.
Proof. by destruct w. Qed.

Lemma set_maps_id w : set_maps (maps w) w = w.
Proof. apply world_eta. Qed.

Lemma Has_live w p uo n :
  uows w !! p = Some uo →
  Has (Some p) n w
    = (Ret (bool_decide (is_Some (lookup_binding w (u_repositories uo) n))), w).
Proof. intros Hp. unfold Has. run. by rewrite Hp. Qed.

Lemma Remove_bound_run w p uo l r n g :
  uows w !! p = Some uo → u_repositories uo = Some l → maps w !! l = Some r →
  r !! n = Some g →
  Remove (Some p) n w = (Ret None, set_maps (<[l := delete n r]> (maps w)) w).
Proof.
  intros Hp Hl Hm Hn. unfold Remove. run. rewrite Hp. simpl.
  unfold lookup_binding. rewrite Hl. simpl. rewrite Hm. simpl. rewrite Hn.
  rewrite Hp. simpl. rewrite Hl. do 2 f_equal. f_equal.
  apply map_eq. intros l'. destruct (decide (l' = l)) as [->|Hne].
  - by rewrite lookup_alter_eq, lookup_insert_eq, Hm.
  - by rewrite lookup_alter_ne, lookup_insert_ne.
Qed.

(** [Register] and [Remove] never touch the structs, the outside world or
    the log, whatever they are called on. *)
Lemma Register_rest w u n f :
  uows (Register u n f w).2 = uows w ∧ env (Register u n f w).2 = env w ∧
  log (Register u n f w).2 = log w.
Proof.
  unfold Register. run. destruct (u ≫= (uows w !!.)) as [uo|] eqn:Hu; simpl; [|done].
  destruct (lookup_binding w (u_repositories uo) n); simpl; [done|].
  rewrite Hu. simpl. destruct (u_repositories uo) as [l|]; simpl; [|done].
  by destruct (maps w !! l).
Qed.

Lemma Remove_rest w u n :
  uows (Remove u n w).2 = uows w ∧ env (Remove u n w).2 = env w ∧
  log (Remove u n w).2 = log w.
Proof.
  unfold Remove. run. destruct (u ≫= (uows w !!.)) as [uo|] eqn:Hu; simpl; [|done].
  destruct (lookup_binding w (u_repositories uo) n); simpl; [|done].
  rewrite Hu. simpl. by destruct (u_repositories uo).
Qed.

(** What a map reference resolves to depends on the maps alone. *)
Lemma lookup_binding_insert_other w l r' m n :
  (∀ r, maps w !! l = Some r → r !! n = r' !! n) → is_Some (maps w !! l) →
  lookup_binding (set_maps (<[l := r']> (maps w)) w) m n = lookup_binding w m n.
Proof.
  intros Hsame [r Hr]. unfold lookup_binding. simpl.
  destruct m as [l'|]; simpl; [|done].
  destruct (decide (l' = l)) as [->|Hne].
  - rewrite lookup_insert_eq, Hr. simpl. symmetry. by apply Hsame.
  - by rewrite lookup_insert_ne.
Qed.

Lemma Register_other_names w u n n' f m :
  n' ≠ n → lookup_binding (Register u n f w).2 m n' = lookup_binding w m n'.
Proof.
  intros Hne. unfold Register. run.
  destruct (u ≫= (uows w !!.)) as [uo|] eqn:Hu; simpl; [|done].
  destruct (lookup_binding w (u_repositories uo) n); simpl; [done|].
  rewrite Hu. simpl. destruct (u_repositories uo) as [l|]; simpl; [|done].
  destruct (maps w !! l) as [r|] eqn:Hr; simpl; [|done].
  apply (lookup_binding_insert_other w l); [|by eexists].
  intros r0. rewrite Hr. intros [= <-]. by rewrite lookup_insert_ne.
Qed.

Lemma Remove_other_names w u n n' m :
  n' ≠ n → lookup_binding (Remove u n w).2 m n' = lookup_binding w m n'.
Proof.
  intros Hne. unfold Remove. run.
  destruct (u ≫= (uows w !!.)) as [uo|] eqn:Hu; simpl; [|done].
  destruct (lookup_binding w (u_repositories uo) n); simpl; [|done].
  rewrite Hu. simpl. destruct (u_repositories uo) as [l|]; simpl; [|done].
  unfold lookup_binding. simpl. destruct m as [l'|]; simpl; [|done].
  destruct (decide (l' = l)) as [->|Hl].
  - rewrite lookup_alter_eq. destruct (maps w !! l) as [r0|]; simpl; [|done].
    by rewrite lookup_delete_ne.
  - by rewrite lookup_alter_ne.
Qed.

(** ** The constructor and the query *)

(** X1. [NewUnitOfWork(db)] returns a pointer that was not in use, to a
    struct that holds [db] and a new, empty, non-nil map: [Has] is false
    for every name.  Nothing that existed is disturbed: every unit of work
    keeps its registry, every map reference resolves as before, and the
    new unit of work shares its map with none of them. *)
Theorem NewUnitOfWork_spec (db : DB) w :
  ∃ p l w', NewUnitOfWork db w = (Ret (Some p), w') ∧
    uows w !! p = None ∧ maps w !! l = None ∧
    uows w' !! p = Some (mkUnitOfWork db (Some l)) ∧
    registry_of w' (Some p) = Some ∅ ∧
    (∀ n, Has (Some p) n w' = (Ret false, w')) ∧
    (∀ p2 r2, registry_of w (Some p2) = Some r2 →
       registry_of w' (Some p2) = Some r2 ∧ p2 ≠ p ∧
       ∀ uo2, uows w' !! p2 = Some uo2 → u_repositories uo2 ≠ Some l) ∧
    (∀ m n, lookup_binding w' m n = lookup_binding w m n) ∧
    env w' = env w ∧ log w' = log w.
Proof.
  set (l := fresh (dom (maps w))). set (p := fresh (dom (uows w))).
  assert (Hl : maps w !! l = None) by apply not_elem_of_dom, is_fresh.
  assert (Hp : uows w !! p = None) by apply not_elem_of_dom, is_fresh.
  exists p, l, (set_uows (<[p := mkUnitOfWork db (Some l)]> (uows w))
                  (set_maps (<[l := ∅]> (maps w)) w)).
  split; [reflexivity|].
  assert (Hr : registry_of
            (set_uows (<[p := mkUnitOfWork db (Some l)]> (uows w))
               (set_maps (<[l := ∅]> (maps w)) w)) (Some p) = Some ∅).
  { unfold registry_of. simpl. rewrite lookup_insert_eq. simpl. apply lookup_insert_eq. }
  split; [done|]. split; [done|]. split; [apply lookup_insert_eq|].
  split; [done|]. split.
  { intros n. apply (Has_unbound _ _ ∅ n Hr), lookup_empty. }
  split; [|split; [|done]].
  - intros p2 r2 Hr2.
    destruct (registry_of_inv _ _ _ Hr2) as (p' & uo2 & l2 & [= <-] & Hp2 & Hl2 & Hm2).
    assert (p2 ≠ p) by (intros ->; congruence).
    assert (l2 ≠ l) by (intros ->; congruence).
    split; [|split; [done|]].
    + unfold registry_of. simpl. rewrite lookup_insert_ne by done. rewrite Hp2. simpl.
      rewrite Hl2. simpl. by rewrite lookup_insert_ne.
    + intros uo2'. simpl. rewrite lookup_insert_ne by done. rewrite Hp2.
      intros [= <-]. rewrite Hl2. congruence.
  - intros m n. apply (lookup_binding_make_map w).
Qed.

(** X2. [Has] and [Get] agree on what is registered.  On a live unit of
    work [Has(n)] returns without changing anything, and for a scope that
    holds the unit of work's map: it is true exactly when [Get(n)] finds a
    func value under [n] and calls it (so that [Get] returns the call's
    result with a nil error, or panics as the call does, a nil func value
    included), and false exactly when [Get(n)] returns
    [ErrRepositoryNotRegistered]; a nil map counts as empty. *)
Theorem Has_agrees_with_Get w p uo t n :
  uows w !! p = Some uo → t_repositories t = u_repositories uo →
  ∃ b, Has (Some p) n w = (Ret b, w) ∧
    (b = true ↔ ∃ f, lookup_binding w (t_repositories t) n = Some f ∧
                     Get t n w = resolve_with n f (t_tx t) w) ∧
    (b = false ↔ Get t n w = (Ret (None, Some ErrRepositoryNotRegistered), w)) ∧
    (b = true → ∀ (r : Repository) e w', Get t n w = (Ret (r, e), w') → e = None).
Proof.
  intros Hp Ht. eexists. split; [by apply Has_live|]. rewrite <- Ht.
  destruct (lookup_binding w (t_repositories t) n) as [f|] eqn:Hn.
  - rewrite bool_decide_eq_true_2 by by eexists.
    assert (Hget : Get t n w = resolve_with n f (t_tx t) w) by by apply Get_found.
    split; [|split].
    + split; [|done]. intros _. by exists f.
    + split; [done|]. rewrite Hget. intros Hres.
      by pose proof (resolve_with_no_error _ _ _ _ _ _ _ Hres).
    + intros _ r e w'. rewrite Hget. apply resolve_with_no_error.
  - rewrite bool_decide_eq_false_2 by by intros [? ?]. split; [|split].
    + split; [done|]. by intros (f & ? & _).
    + split; [|done]. intros _. by apply Get_unbound.
    + done.
Qed.

(** ** Round trips and order *)

(** X3. Registering an unused name and removing it again succeeds twice
    and leaves the world exactly as it was. *)
Theorem Register_then_Remove w u r n f :
  registry_of w u = Some r → r !! n = None →
  ∃ w1, Register u n f w = (Ret None, w1) ∧ Remove u n w1 = (Ret None, w).
Proof.
  intros Hr Hn. destruct (registry_of_inv _ _ _ Hr) as (p & uo & l & -> & Hp & Hl & Hm).
  eexists. split; [by apply (Register_unused_run w p uo l r)|].
  rewrite (Remove_bound_run _ p uo l (<[n := f]> r) n f); try done.
  - f_equal. unfold set_maps. simpl. rewrite insert_insert_eq.
    rewrite delete_insert_eq, delete_id, insert_id by done. apply world_eta.
  - simpl. apply lookup_insert_eq.
  - apply lookup_insert_eq.
Qed.

(** X4. Removing a bound name and registering it again with the factory
    it had succeeds twice and leaves the world exactly as it was. *)
Theorem Remove_then_Register w u r n g :
  registry_of w u = Some r → r !! n = Some g →
  ∃ w1, Remove u n w = (Ret None, w1) ∧ Register u n g w1 = (Ret None, w).
Proof.
  intros Hr Hn. destruct (registry_of_inv _ _ _ Hr) as (p & uo & l & -> & Hp & Hl & Hm).
  eexists. split; [by apply (Remove_bound_run w p uo l r n g)|].
  rewrite (Register_unused_run _ p uo l (delete n r) n g); try done.
  - f_equal. unfold set_maps. simpl. rewrite insert_insert_eq.
    rewrite insert_delete_eq, (insert_id r), insert_id by done. apply world_eta.
  - simpl. apply lookup_insert_eq.
  - apply lookup_delete_eq.
Qed.

(** X5. The order of two registrations of different unused names does not
    matter: both orders succeed and end in the same world. *)
Theorem Register_commute w u r n1 n2 f1 f2 :
  registry_of w u = Some r → n1 ≠ n2 → r !! n1 = None → r !! n2 = None →
  ∃ wa wb w',
    Register u n1 f1 w = (Ret None, wa) ∧ Register u n2 f2 wa = (Ret None, w') ∧
    Register u n2 f2 w = (Ret None, wb) ∧ Register u n1 f1 wb = (Ret None, w') ∧
    registry_of w' u = Some (<[n1 := f1]> (<[n2 := f2]> r)).
Proof.
  intros Hr Hne Hn1 Hn2.
  destruct (registry_of_inv _ _ _ Hr) as (p & uo & l & -> & Hp & Hl & Hm).
  eexists _, _, _. split; [by apply (Register_unused_run w p uo l r)|].
  split.
  { apply (Register_unused_run _ p uo l (<[n1 := f1]> r)); try done.
    - simpl. apply lookup_insert_eq.
    - by rewrite lookup_insert_ne. }
  split; [by apply (Register_unused_run w p uo l r)|].
  split.
  { rewrite (Register_unused_run _ p uo l (<[n2 := f2]> r) n1 f1); try done.
    - unfold set_maps. simpl. rewrite !insert_insert_eq.
      by rewrite (insert_insert_ne r n1 n2).
    - simpl. apply lookup_insert_eq.
    - by rewrite lookup_insert_ne. }
  unfold registry_of. simpl. rewrite Hp. simpl. rewrite Hl. simpl.
  rewrite lookup_insert_eq. by rewrite (insert_insert_ne r n1 n2).
Qed.

(** X6. [Register] and [Remove] of one name leave every other name alone,
    whatever they are called on and whether they succeed, fail or panic:
    any map reference resolves another name as before, and [Has] answers
    for it as before. *)
Theorem other_names_untouched w u n n' f :
  n' ≠ n →
  (∀ m, lookup_binding (Register u n f w).2 m n' = lookup_binding w m n') ∧
  (∀ m, lookup_binding (Remove u n w).2 m n' = lookup_binding w m n') ∧
  (Has u n' (Register u n f w).2).1 = (Has u n' w).1 ∧
  (Has u n' (Remove u n w).2).1 = (Has u n' w).1.
Proof.
  intros Hne.
  assert (Hhas : ∀ w1, uows w1 = uows w →
            (∀ m, lookup_binding w1 m n' = lookup_binding w m n') →
            (Has u n' w1).1 = (Has u n' w).1).
  { intros w1 Hu Hm. unfold Has. run. rewrite Hu.
    destruct (u ≫= (uows w !!.)) as [uo|]; simpl; [|done]. by rewrite Hm. }
  split; [intros m; by apply Register_other_names|].
  split; [intros m; by apply Remove_other_names|].
  split; apply Hhas.
  - apply Register_rest.
  - intros m. by apply Register_other_names.
  - apply Remove_rest.
  - intros m. by apply Remove_other_names.
Qed.

(** ** Several units of work *)

(** X7. Two units of work that hold different maps do not see each other:
    [Register], [Remove] and [Clear] on the first leave the registry of the
    second as it was. *)
Theorem units_of_work_isolated w p1 p2 uo1 uo2 r2 n f :
  uows w !! p1 = Some uo1 → uows w !! p2 = Some uo2 →
  u_repositories uo1 ≠ u_repositories uo2 →
  registry_of w (Some p2) = Some r2 →
  registry_of (Register (Some p1) n f w).2 (Some p2) = Some r2 ∧
  registry_of (Remove (Some p1) n w).2 (Some p2) = Some r2 ∧
  registry_of (Clear (Some p1) w).2 (Some p2) = Some r2.
Proof.
  intros Hp1 Hp2 Hdiff Hr2.
  destruct (registry_of_inv _ _ _ Hr2) as (p' & uo' & l2 & [= <-] & Hp2' & Hl2 & Hm2).
  assert (uo' = uo2) as -> by congruence.
  assert (Hne : p1 ≠ p2) by (intros ->; congruence).
  split; [|split].
  - unfold Register. run. rewrite Hp1. simpl.
    destruct (lookup_binding w (u_repositories uo1) n); simpl; [done|].
    rewrite Hp1. simpl. destruct (u_repositories uo1) as [l1|] eqn:Hl1; simpl; [|done].
    destruct (maps w !! l1) as [r1|]; simpl; [|done].
    unfold registry_of. simpl. rewrite Hp2. simpl. rewrite Hl2. simpl.
    rewrite lookup_insert_ne; [done|]. congruence.
  - unfold Remove. run. rewrite Hp1. simpl.
    destruct (lookup_binding w (u_repositories uo1) n); simpl; [|done].
    rewrite Hp1. simpl. destruct (u_repositories uo1) as [l1|] eqn:Hl1; simpl; [|done].
    unfold registry_of. simpl. rewrite Hp2. simpl. rewrite Hl2. simpl.
    rewrite lookup_alter_ne; [done|]. congruence.
  - unfold Clear, make_map. run. rewrite Hp1. simpl.
    unfold registry_of. simpl. rewrite lookup_insert_ne by done. rewrite Hp2. simpl.
    rewrite Hl2. simpl. rewrite lookup_insert_ne; [done|].
    intros <-. assert (maps w !! fresh (dom (maps w)) = None)
      by apply not_elem_of_dom, is_fresh. congruence.
Qed.

(** ** After a removal, after a clearing *)

(** X8. [Remove] frees the name: a second [Remove] of it fails with
    [ErrRepositoryNotRegistered] and changes nothing, and the name can be
    registered again with any factory, which is how a binding is
    replaced. *)
Theorem Remove_frees_the_name w u r n g :
  registry_of w u = Some r → r !! n = Some g →
  ∃ w1, Remove u n w = (Ret None, w1) ∧
        Remove u n w1 = (Ret (Some ErrRepositoryNotRegistered), w1) ∧
        ∀ f, ∃ w2, Register u n f w1 = (Ret None, w2) ∧
                   registry_of w2 u = Some (<[n := f]> r).
Proof.
  intros Hr Hn. destruct (Remove_bound w u r n g Hr Hn) as (w1 & Hrem & Hr1 & _).
  exists w1. split; [done|]. split.
  - apply (Remove_absent w1 u _ n Hr1), lookup_delete_eq.
  - intros f.
    destruct (Register_unused w1 u _ n f Hr1 (lookup_delete_eq r n)) as (w2 & Hreg & Hr2 & _).
    exists w2. split; [done|]. by rewrite Hr2, insert_delete_eq.
Qed.

(** X9. After [Clear] nothing is registered for what comes next: [Remove]
    of any name fails with [ErrRepositoryNotRegistered], and a scope built
    from the unit of work afterwards resolves no name. *)
Theorem Clear_then_nothing_registered w p uo :
  uows w !! p = Some uo →
  ∃ w1, Clear (Some p) w = (Ret tt, w1) ∧
    (∀ n, Remove (Some p) n w1 = (Ret (Some ErrRepositoryNotRegistered), w1)) ∧
    (∀ tx t w2 n,
       (m ← get_repositories (Some p); NewTransaction tx m) w1 = (Ret t, w2) →
       Get t n w2 = (Ret (None, Some ErrRepositoryNotRegistered), w2)).
Proof.
  intros Hp. destruct (Clear_run w p uo Hp) as (w1 & Hclear & Hr1 & _).
  exists w1. split; [done|]. split.
  - intros n. apply (Remove_absent w1 (Some p) ∅ n Hr1), lookup_empty.
  - intros tx t w2 n.
    destruct (registry_of_inv _ _ _ Hr1) as (p' & uo1 & l & [= <-] & Hp1 & Hl & Hm).
    unfold NewTransaction. run. rewrite Hp1. simpl. intros [= <- <-].
    apply Get_unbound. unfold lookup_binding. simpl. rewrite Hl. simpl.
    rewrite Hm. simpl. apply lookup_empty.
Qed.

(** ** A nil receiver *)

(** X10. Every method called on a nil [*UnitOfWork] panics with a nil
    pointer dereference.  [Do] panics before it begins a transaction: it
    calls neither [BeginTx] nor [fn], and the world is unchanged. *)
Theorem nil_receiver_panics w n f ctx (fn : Ctx → Transaction → M error) :
  Do None ctx fn w = (Panic NilPointerDereference, w) ∧
  Register None n f w = (Panic NilPointerDereference, w) ∧
  Remove None n w = (Panic NilPointerDereference, w) ∧
  Has None n w = (Panic NilPointerDereference, w) ∧
  (Clear None w).1 = Panic NilPointerDereference ∧
  uows (Clear None w).2 = uows w ∧ env (Clear None w).2 = env w ∧
  log (Clear None w).2 = log w ∧
  ∀ m k, lookup_binding (Clear None w).2 m k = lookup_binding w m k.
Proof.
  do 8 (split; [done|]). intros m k. apply (lookup_binding_make_map w).
Qed.

(** ** The runner and its function *)

(** [Do], once the transaction has begun, for any outcome of [fn]. *)
Lemma Do_run w p uo ctx fn tx e1 out w2 :
  uows w !! p = Some uo →
  BeginTx (u_db uo) ctx (env w) = ((tx, None), e1) →
  fn ctx (mkTransaction tx (u_repositories uo))
     (fn_entry w (u_db uo) ctx (mkTransaction tx (u_repositories uo)) e1)
    = (out, w2) →
  Do (Some p) ctx fn w = Do_exit tx out w2.
Proof.
  intros Hp Hb Hfn. destruct out as [[e|]|pv].
  - by apply (Do_run_error w p uo ctx fn tx e1 w2).
  - by apply (Do_run_ok w p uo ctx fn tx e1 w2).
  - by apply (Do_run_panic w p uo ctx fn tx e1 w2).
Qed.

(** X11. [Do] uses [fn] for one call only, made with the context [Do]
    was given and the scope of the transaction just begun: two functions
    that behave alike on that call give the same [Do], and when [BeginTx]
    fails any two functions do. *)
Theorem Do_calls_fn_once w p uo ctx fn fn' tx err e1 :
  uows w !! p = Some uo →
  BeginTx (u_db uo) ctx (env w) = ((tx, err), e1) →
  (err = None →
   fn ctx (mkTransaction tx (u_repositories uo))
      (fn_entry w (u_db uo) ctx (mkTransaction tx (u_repositories uo)) e1)
   = fn' ctx (mkTransaction tx (u_repositories uo))
      (fn_entry w (u_db uo) ctx (mkTransaction tx (u_repositories uo)) e1)) →
  Do (Some p) ctx fn w = Do (Some p) ctx fn' w.
Proof.
  intros Hp Hb Hsame. destruct err as [e|].
  - unfold Do, call_BeginTx. run. rewrite Hp. simpl. by rewrite Hb.
  - rewrite (Do_begun w p uo ctx fn tx e1 Hp Hb), (Do_begun w p uo ctx fn' tx e1 Hp Hb).
    unfold defer, mbind, M_bind. by rewrite Hsame.
Qed.

(** X12. What [Rollback] returns, and what it does, has no part in what
    [Do] returns or in the calls [Do] makes: on two handles that begin and
    commit alike, [Do] gives the same result, the same log and the same
    store.  A failing rollback masks neither [fn]'s error nor the commit
    error. *)
Theorem Do_result_ignores_Rollback (d1 d2 : SqlDriver DB Tx Ctx E) u ctx
    (fn : Ctx → Transaction → M error) w :
  (∀ d c e, BeginTx (SqlDriver := d1) d c e = BeginTx (SqlDriver := d2) d c e) →
  (∀ h e, Commit (SqlDriver := d1) h e = Commit (SqlDriver := d2) h e) →
  (Do (driver := d1) u ctx fn w).1 = (Do (driver := d2) u ctx fn w).1 ∧
  log (Do (driver := d1) u ctx fn w).2 = log (Do (driver := d2) u ctx fn w).2 ∧
  maps (Do (driver := d1) u ctx fn w).2 = maps (Do (driver := d2) u ctx fn w).2 ∧
  uows (Do (driver := d1) u ctx fn w).2 = uows (Do (driver := d2) u ctx fn w).2.
Proof.
  intros Hb Hc.
  unfold Do, call_BeginTx, defer, NewTransaction, call_fn, call_Commit, call_Rollback.
  run. destruct (u ≫= (uows w !!.)) as [uo|] eqn:Hu; simpl; [|done].
  rewrite Hb. destruct (BeginTx (u_db uo) ctx (env w)) as [[tx [e|]] e1]; simpl; [done|].
  rewrite Hu. simpl.
  destruct (fn ctx _ _) as [[[e|]|pv] w2]; simpl.
  - by destruct (Rollback (SqlDriver := d1) tx (env w2)),
               (Rollback (SqlDriver := d2) tx (env w2)).
  - rewrite Hc. destruct (Commit tx (env w2)) as [cerr e3]. simpl.
    by destruct (Rollback (SqlDriver := d1) tx e3), (Rollback (SqlDriver := d2) tx e3).
  - by destruct (Rollback (SqlDriver := d1) tx (env w2)),
               (Rollback (SqlDriver := d2) tx (env w2)).
Qed.

(** X13. A caller that starts with [tx.Get(n)] and returns its error.
    When [n] is not registered, [Do] returns [ErrRepositoryNotRegistered],
    the rest of the caller's function does not run, nothing is committed
    and the transaction is rolled back.  When [n] is bound to a closure
    whose call returns, the rest runs with the repository the closure
    built on the very transaction that [Do] then commits or rolls back.
    When the call panics, or [n] is bound to a nil func value, the rest
    does not run, nothing is committed, the transaction is rolled back and
    the panic goes on to the caller of [Do]. *)
Theorem Do_with_repository w p uo ctx n k tx e1 :
  uows w !! p = Some uo →
  BeginTx (u_db uo) ctx (env w) = ((tx, None), e1) →
  (lookup_binding w (u_repositories uo) n = None →
     Do (Some p) ctx (with_repository n k) w
       = (Ret (Some ErrRepositoryNotRegistered),
          mkWorld (maps w) (uows w) (Rollback tx e1).2
            (log w ++ [EvBeginTx (u_db uo) ctx;
                       EvNewTransaction (mkTransaction tx (u_repositories uo));
                       EvCallFn ctx (mkTransaction tx (u_repositories uo));
                       EvRollback tx]))) ∧
  (∀ (c : Fn) (repo : Repository) w1 out w2,
     lookup_binding w (u_repositories uo) n = Some (Some c) →
     call_closure c tx
       (mkWorld (maps w) (uows w) e1
          (log w ++ [EvBeginTx (u_db uo) ctx;
                     EvNewTransaction (mkTransaction tx (u_repositories uo));
                     EvCallFn ctx (mkTransaction tx (u_repositories uo));
                     EvFactory n tx])) = (Ret repo, w1) →
     k ctx repo w1 = (out, w2) →
     Do (Some p) ctx (with_repository n k) w = Do_exit tx out w2) ∧
  (∀ (c : Fn) pv w1,
     lookup_binding w (u_repositories uo) n = Some (Some c) →
     call_closure c tx
       (mkWorld (maps w) (uows w) e1
          (log w ++ [EvBeginTx (u_db uo) ctx;
                     EvNewTransaction (mkTransaction tx (u_repositories uo));
                     EvCallFn ctx (mkTransaction tx (u_repositories uo));
                     EvFactory n tx])) = (Panic pv, w1) →
     Do (Some p) ctx (with_repository n k) w = (Panic pv, rolled_back tx w1)) ∧
  (lookup_binding w (u_repositories uo) n = Some None →
     Do (Some p) ctx (with_repository n k) w
       = (Panic NilPointerDereference,
          mkWorld (maps w) (uows w) (Rollback tx e1).2
            (log w ++ [EvBeginTx (u_db uo) ctx;
                       EvNewTransaction (mkTransaction tx (u_repositories uo));
                       EvCallFn ctx (mkTransaction tx (u_repositories uo));
                       EvRollback tx]))).
Proof.
  intros Hp Hb.
  set (w0 := fn_entry w (u_db uo) ctx (mkTransaction tx (u_repositories uo)) e1).
  assert (Hlog : log_event (EvFactory n tx) w0
                 = mkWorld (maps w) (uows w) e1
                     (log w ++ [EvBeginTx (u_db uo) ctx;
                                EvNewTransaction (mkTransaction tx (u_repositories uo));
                                EvCallFn ctx (mkTransaction tx (u_repositories uo));
                                EvFactory n tx])).
  { unfold w0, fn_entry, log_event. simpl. by rewrite <- app_assoc. }
  assert (Hrb : rolled_back tx w0
                = mkWorld (maps w) (uows w) (Rollback tx e1).2
                    (log w ++ [EvBeginTx (u_db uo) ctx;
                               EvNewTransaction (mkTransaction tx (u_repositories uo));
                               EvCallFn ctx (mkTransaction tx (u_repositories uo));
                               EvRollback tx])).
  { unfold w0, fn_entry, rolled_back. simpl. by rewrite <- app_assoc. }
  assert (Hfound : ∀ f, lookup_binding w (u_repositories uo) n = Some f →
            with_repository n k ctx (mkTransaction tx (u_repositories uo)) w0
            = (let '(out, w1) := resolve_with n f tx w0 in
               match out with
               | Ret (repo, _) => k ctx repo w1
               | Panic pv => (Panic pv, w1)
               end)).
  { intros f Hn. unfold with_repository, mbind, M_bind.
    rewrite (Get_found w0 (mkTransaction tx (u_repositories uo)) n f) by done. simpl.
    destruct (resolve_with n f tx w0) as [[[repo e]|pv] w1] eqn:Hres; [|done].
    by rewrite (resolve_with_no_error _ _ _ _ _ _ _ Hres). }
  split; [|split; [|split]].
  - intros Hn. rewrite <- Hrb.
    apply (Do_run w p uo ctx _ tx e1 (Ret (Some ErrRepositoryNotRegistered)) w0 Hp Hb).
    fold w0. unfold with_repository, mbind, M_bind. by rewrite Get_unbound.
  - intros c repo w1 out w2 Hn Hc Hk.
    apply (Do_run w p uo ctx _ tx e1 out w2 Hp Hb). fold w0.
    rewrite (Hfound _ Hn), (resolve_with_ret n c tx w0 repo w1); [done|].
    by rewrite Hlog.
  - intros c pv w1 Hn Hc.
    apply (Do_run w p uo ctx _ tx e1 (Panic pv) w1 Hp Hb). fold w0.
    rewrite (Hfound _ Hn), (resolve_with_panic n c tx w0 pv w1); [done|].
    by rewrite Hlog.
  - intros Hn. rewrite <- Hrb.
    apply (Do_run w p uo ctx _ tx e1 (Panic NilPointerDereference) w0 Hp Hb). fold w0.
    by rewrite (Hfound _ Hn).
Qed.

(** X14. [Do] itself never writes to the store: when [fn] leaves the maps
    and the structs as it found them, so does [Do], on every path (nil
    receiver, failed begin, error, panic, commit), and every unit of work
    has the registry it had. *)
Theorem Do_preserves_store u ctx fn w :
  (∀ c t w0, maps (fn c t w0).2 = maps w0 ∧ uows (fn c t w0).2 = uows w0) →
  maps (Do u ctx fn w).2 = maps w ∧ uows (Do u ctx fn w).2 = uows w ∧
  ∀ u', registry_of (Do u ctx fn w).2 u' = registry_of w u'.
Proof.
  intros Hfn.
  assert (Hstore : maps (Do u ctx fn w).2 = maps w ∧ uows (Do u ctx fn w).2 = uows w).
  { unfold Do, call_BeginTx, defer, NewTransaction, call_fn, call_Commit, call_Rollback.
    run. destruct (u ≫= (uows w !!.)) as [uo|] eqn:Hu; simpl; [|done].
    destruct (BeginTx (u_db uo) ctx (env w)) as [[tx [e|]] e1]; simpl; [done|].
    rewrite Hu. simpl.
    match goal with |- context [fn ctx ?t ?w1] =>
      destruct (Hfn ctx t w1) as [Hm Hu']; destruct (fn ctx t w1) as [[[e|]|pv] w2]
    end; simpl in *.
    - by destruct (Rollback tx (env w2)).
    - destruct (Commit tx (env w2)) as [cerr e3]. simpl. by destruct (Rollback tx e3).
    - by destruct (Rollback tx (env w2)). }
  destruct Hstore as [Hm Hu]. split; [done|]. split; [done|].
  intros u'. unfold registry_of. by rewrite Hm, Hu.
Qed.

(** ** Typed lookup through any scope *)

(** X15. [GetAs] over any implementation of [TX]: it leaves the world as
    that implementation's [Get] leaves it; an error of [Get] comes back
    unchanged, with the zero value; a panic of [Get] goes on; a nil error
    comes back only with the value the type assertion gave for what [Get]
    returned; and whenever the error is not nil the value is the zero
    value. *)
Theorem GetAs_any_TX {A T : Type}
    `{!TX (Obj := Obj) (DB := DB) (Ctx := Ctx) (Fn := Fn) A}
    `{!GoType (Obj := Obj) T} (t : A) n w :
  (GetAs t n w).2 = (Get t n w).2 ∧
  (∀ repo e, (Get t n w).1 = Ret (repo, Some e) → (GetAs t n w).1 = Ret (zero, Some e)) ∧
  (∀ pv, (Get t n w).1 = Panic pv → (GetAs t n w).1 = Panic pv) ∧
  (∀ v, (GetAs t n w).1 = Ret (v, None) →
        ∃ repo, (Get t n w).1 = Ret (repo, None) ∧ type_assert repo = Some v) ∧
  (∀ v e, (GetAs t n w).1 = Ret (v, Some e) → v = zero).
Proof.
  unfold GetAs, mbind, M_bind.
  destruct (Get t n w) as [[[repo [e|]]|pv] w1]; simpl.
  - split; [done|]. split; [by intros ? ? [= <- <-]|]. split; [done|].
    split; [done|]. by intros v e' [= <- _].
  - destruct (type_assert repo) as [v0|] eqn:Ha; simpl.
    + split; [done|]. split; [done|]. split; [done|].
      split; [|done]. intros v [= <-]. by exists repo.
    + split; [done|]. split; [done|]. split; [done|].
      split; [done|]. by intros v e [= <- _].
  - split; [done|]. split; [done|]. split; [by intros ? [= <-]|]. done.
Qed.

(** ** Edges of the store *)

(** X16. A scope made by [NewTransaction(tx, m)] resolves through [m] and
    builds on [tx]: for a name bound in [m], [Get] calls the func value
    found there on [tx] (returning what the call returns, panicking as it
    panics); any other name, and every name when [m] is the nil map, gives
    [ErrRepositoryNotRegistered] without a panic.  Making the scope
    touches neither the store nor the outside world. *)
Theorem NewTransaction_Get tx m n w :
  (∀ f, lookup_binding w m n = Some f →
     (t ← NewTransaction tx m; Get t n) w
       = resolve_with n f tx
           (mkWorld (maps w) (uows w) (env w)
              (log w ++ [EvNewTransaction (mkTransaction tx m)]))) ∧
  (∀ (c : Fn) (r : Repository) w1, lookup_binding w m n = Some (Some c) →
     call_closure c tx
       (mkWorld (maps w) (uows w) (env w)
          (log w ++ [EvNewTransaction (mkTransaction tx m); EvFactory n tx]))
       = (Ret r, w1) →
     (t ← NewTransaction tx m; Get t n) w = (Ret (r, None), w1)) ∧
  (lookup_binding w m n = None →
     (t ← NewTransaction tx m; Get t n) w
       = (Ret (None, Some ErrRepositoryNotRegistered),
          mkWorld (maps w) (uows w) (env w)
            (log w ++ [EvNewTransaction (mkTransaction tx m)]))) ∧
  (t ← NewTransaction tx None; Get t n) w
    = (Ret (None, Some ErrRepositoryNotRegistered),
       mkWorld (maps w) (uows w) (env w)
         (log w ++ [EvNewTransaction (mkTransaction tx None)])).
Proof.
  assert (Hnone : ∀ m0, lookup_binding w m0 n = None →
            (t ← NewTransaction tx m0; Get t n) w
              = (Ret (None, Some ErrRepositoryNotRegistered),
                 mkWorld (maps w) (uows w) (env w)
                   (log w ++ [EvNewTransaction (mkTransaction tx m0)]))).
  { intros m0 Hn. unfold NewTransaction, mbind, M_bind. by rewrite Get_unbound. }
  assert (Hsome : ∀ f, lookup_binding w m n = Some f →
            (t ← NewTransaction tx m; Get t n) w
              = resolve_with n f tx
                  (mkWorld (maps w) (uows w) (env w)
                     (log w ++ [EvNewTransaction (mkTransaction tx m)]))).
  { intros f Hn. unfold NewTransaction, mbind, M_bind.
    by rewrite (Get_found _ (mkTransaction tx m) n f). }
  split; [exact Hsome|]. split; [|split; [apply Hnone|by apply Hnone]].
  intros c r w1 Hn Hc. rewrite (Hsome _ Hn). apply resolve_with_ret.
  unfold log_event. simpl. by rewrite <- app_assoc.
Qed.

(** X17. The zero value of [UnitOfWork], whose map is nil: [Has] is false
    and [Remove] fails with [ErrRepositoryNotRegistered] for every name,
    both leaving the world as it is; [Register] panics on the assignment to
    the nil map, leaving the world as it is; [Clear] gives it a map, after
    which [Register] succeeds. *)
Theorem zero_value_UnitOfWork w p uo n f :
  uows w !! p = Some uo → u_repositories uo = None →
  Has (Some p) n w = (Ret false, w) ∧
  Remove (Some p) n w = (Ret (Some ErrRepositoryNotRegistered), w) ∧
  Register (Some p) n f w = (Panic NilMapAssignment, w) ∧
  ∃ w1 w2, Clear (Some p) w = (Ret tt, w1) ∧
           Register (Some p) n f w1 = (Ret None, w2) ∧
           registry_of w2 (Some p) = Some {[n := f]}.
Proof.
  intros Hp Hl.
  assert (Hn : lookup_binding w (u_repositories uo) n = None) by by rewrite Hl.
  split; [|split; [|split]].
  - rewrite (Has_live w p uo n Hp), Hn. rewrite bool_decide_eq_false_2; [done|].
    by intros [? ?].
  - unfold Remove. run. rewrite Hp. simpl. by rewrite Hn.
  - by apply (Register_nil_map w p uo).
  - destruct (Clear_run w p uo Hp) as (w1 & Hclear & Hr1 & _).
    destruct (Register_unused w1 (Some p) ∅ n f Hr1 (lookup_empty n)) as (w2 & Hreg & Hr2 & _).
    exists w1, w2. split; [done|]. split; [done|]. by rewrite Hr2, insert_empty.
Qed.

End UowTheory.

(** * The package at work on the small transactional resource *)

Module DemoFacts.
Import Demo.

(** The handle of [Demo] keeps the contract: it is finished by a
    successful commit, and a finished handle rolls nothing back. *)
Lemma demo_rollback_after_commit :
  @rollback_after_commit_is_noop Db nat unit Env driver.
Proof.
  intros tx e e'. simpl. unfold commit_tx, rollback_tx.
  destruct (is_finished tx e) eqn:Hf; [done|].
  destruct (Nat.even tx); [|done].
  intros [= <-]. unfold is_finished at 1. simpl.
  rewrite bool_decide_eq_true_2; [done|]. apply list_elem_of_here.
Qed.

(** [NewUnitOfWork] followed by the two registrations gives the registry
    [both]. *)
Example setup_registry : registry_of w_good the_uow = Some both.
Proof. vm_compute. reflexivity. Qed.


Lemma Register_spec_witness :
  registry_of w_good the_uow = Some both ∧
  (∃ w', Register the_uow "CustomerRepository" NewOrderRepository w_good = (Ret None, w') ∧
         registry_of w' the_uow = Some (<["CustomerRepository" := NewOrderRepository]> both) ∧
         Has the_uow "CustomerRepository" w' = (Ret true, w')) ∧
  Register the_uow "OrderRepository" NewProductRepository w_good
    = (Ret (Some ErrRepositoryAlreadyRegistered), w_good).
Proof.
  split; [vm_compute; reflexivity|].
  destruct (Register_spec w_good the_uow both "CustomerRepository" NewOrderRepository)
    as [Hadd _]; [vm_compute; reflexivity|].
  destruct (Register_spec w_good the_uow both "OrderRepository" NewProductRepository)
    as [_ Hdup]; [vm_compute; reflexivity|].
  split.
  - destruct Hadd as (w' & H1 & H2 & H3 & _); [vm_compute; reflexivity|].
    exists w'. repeat split; assumption.
  - apply (Hdup NewOrderRepository). vm_compute. reflexivity.
Defined.

Lemma Remove_spec_witness :
  registry_of w_good the_uow = Some both ∧
  (∃ w', Remove the_uow "OrderRepository" w_good = (Ret None, w') ∧
         registry_of w' the_uow = Some (delete "OrderRepository" both) ∧
         Has the_uow "OrderRepository" w' = (Ret false, w')) ∧
  Remove the_uow "CustomerRepository" w_good
    = (Ret (Some ErrRepositoryNotRegistered), w_good).
Proof.
  split; [vm_compute; reflexivity|].
  destruct (Remove_spec w_good the_uow both "OrderRepository")
    as [Hdel _]; [vm_compute; reflexivity|].
  destruct (Remove_spec w_good the_uow both "CustomerRepository")
    as [_ Habsent]; [vm_compute; reflexivity|].
  split.
  - destruct (Hdel NewOrderRepository) as (w' & H1 & H2 & H3 & _); [vm_compute; reflexivity|].
    exists w'. repeat split; assumption.
  - apply Habsent. vm_compute. reflexivity.
Defined.

Lemma Clear_spec_witness :
  uows w_good !! 0 = Some (uow_on good_db) ∧
  ∃ w', Clear the_uow w_good = (Ret tt, w') ∧
        Has the_uow "ProductRepository" w' = (Ret false, w') ∧
        Has the_uow "OrderRepository" w' = (Ret false, w') ∧
        ∃ w'', Register the_uow "ProductRepository" NewProductRepository w' = (Ret None, w'') ∧
               Has the_uow "ProductRepository" w'' = (Ret true, w'').
Proof.
  split; [vm_compute; reflexivity|].
  destruct (Clear_spec w_good 0 (uow_on good_db)) as (w' & H1 & _ & H2 & H3 & _);
    [vm_compute; reflexivity|].
  exists w'. repeat split; [exact H1|apply H2|apply H2|apply H3].
Defined.




(** Two lookups of one name in one scope: two objects, at two addresses,
    for the one transaction.  A factory that panics makes [Get] panic. *)
Lemma Get_spec_witness :
  (a ← Get the_scope "ProductRepository"; b ← Get the_scope "ProductRepository";
   mret (a, b)) w_good
    = (Ret ((Some (mkObject "*ProductRepository" 7 0), None),
            (Some (mkObject "*ProductRepository" 7 1), None)),
       (new_object "*ProductRepository" 7
          (log_event (EvFactory "ProductRepository" 7)
             (new_object "*ProductRepository" 7
                (log_event (EvFactory "ProductRepository" 7) w_good)).2)).2) ∧
  (Get the_scope "FailingRepository" w_odd).1 = Panic (UserPanic "no repository") ∧
  Get the_scope "NilRepository" w_odd = (Panic NilPointerDereference, w_odd) ∧
  Get the_scope "CustomerRepository" w_good
    = (Ret (None, Some ErrRepositoryNotRegistered), w_good).
Proof.
  destruct (Get_spec w_good the_scope "ProductRepository") as (Hbound & _).
  destruct (Get_spec w_odd the_scope "FailingRepository") as (_ & Hpanic & _).
  destruct (Get_spec w_odd the_scope "NilRepository") as (_ & _ & Hnil & _).
  destruct (Get_spec w_good the_scope "CustomerRepository") as (_ & _ & _ & Hunbound).
  split; [|split; [|split]].
  - destruct (Hbound ProductFn (Some (mkObject "*ProductRepository" 7 0))
                (new_object "*ProductRepository" 7
                   (log_event (EvFactory "ProductRepository" 7) w_good)).2)
      as [_ Htwice]; [vm_compute; reflexivity ..|].
    apply (Htwice ProductFn); vm_compute; reflexivity.
  - refine (f_equal fst (Hpanic FailingFn (UserPanic "no repository")
                           (log_event (EvFactory "FailingRepository" 7) w_odd) _ _));
      vm_compute; reflexivity.
  - apply Hnil. vm_compute. reflexivity.
  - apply Hunbound. vm_compute. reflexivity.
Defined.

(** [Register] takes a nil func value, and the name is then bound: [Has]
    is true.  [Get] on it does not return a repository, and does not
    return at all: it panics. *)
Lemma Get_bound_to_nil_counterexample :
  (Register the_uow "NilRepository" NilFactory w_good).1 = Ret None ∧
  Has the_uow "NilRepository" w_odd = (Ret true, w_odd) ∧
  lookup_binding w_odd (t_repositories the_scope) "NilRepository" = Some NilFactory ∧
  ¬ ∃ (r : option Object) e w', Get the_scope "NilRepository" w_odd = (Ret (r, e), w').
Proof.
  split; [vm_compute; reflexivity|]. split; [vm_compute; reflexivity|].
  split; [vm_compute; reflexivity|].
  intros (r & e & w' & Hget).
  assert (Hpanic : Get the_scope "NilRepository" w_odd = (Panic NilPointerDereference, w_odd))
    by (vm_compute; reflexivity).
  rewrite Hpanic in Hget. discriminate Hget.
Qed.

Lemma GetAs_spec_witness :
  (GetAs (T := ProductRepository) the_scope "OrderRepository" w_good).1
    = Ret (mkProductRepository None, Some ErrInvalidRepositoryType) ∧
  (GetAs (T := ProductRepository) the_scope "ProductRepository" w_good).1
    = Ret (mkProductRepository (Some (mkObject "*ProductRepository" 7 0)), None) ∧
  GetAs (T := ProductRepository) the_scope "CustomerRepository" w_good
    = (Ret (mkProductRepository None, Some ErrRepositoryNotRegistered), w_good) ∧
  (GetAs (T := ProductRepository) the_scope "OrderRepository" w_good).2
    = (Get the_scope "OrderRepository" w_good).2 ∧
  GetAs (T := ProductRepository) the_scope "NilRepository" w_odd
    = (Panic NilPointerDereference, w_odd).
Proof.
  destruct (GetAs_spec (T := ProductRepository) w_good the_scope "OrderRepository")
    as (Hworld & _ & _ & Hwrong & _).
  destruct (GetAs_spec (T := ProductRepository) w_good the_scope "ProductRepository")
    as (_ & _ & _ & Hright & _).
  destruct (GetAs_spec (T := ProductRepository) w_good the_scope "CustomerRepository")
    as (_ & Hmissing & _).
  destruct (GetAs_spec (T := ProductRepository) w_odd the_scope "NilRepository")
    as (_ & _ & _ & _ & Hpanic).
  split; [|split; [|split; [|split]]].
  - refine (f_equal fst (Hwrong OrderFn (Some (mkObject "*OrderRepository" 7 0))
                           (new_object "*OrderRepository" 7
                              (log_event (EvFactory "OrderRepository" 7) w_good)).2 _ _));
      vm_compute; reflexivity.
  - refine (f_equal fst (Hright ProductFn (Some (mkObject "*ProductRepository" 7 0))
                           (new_object "*ProductRepository" 7
                              (log_event (EvFactory "ProductRepository" 7) w_good)).2 _ _));
      vm_compute; reflexivity.
  - apply Hmissing. vm_compute. reflexivity.
  - exact Hworld.
  - apply Hpanic. vm_compute. reflexivity.
Defined.

(** The server is down: [Do] gives back the connection error and has
    called nothing but [BeginTx]. *)
Lemma Do_begin_fails_witness :
  uows w_down !! 0 = Some (uow_on down_db) ∧
  Do the_uow tt (fn_save "p1") w_down
    = (Ret (Some ErrConnection),
       mkWorld (maps w_down) (uows w_down) e0 [EvBeginTx down_db tt]) ∧
  Do the_uow tt (fn_panic "p1") w_down = Do the_uow tt (fn_save "p1") w_down.
Proof.
  split; [vm_compute; reflexivity|].
  destruct (Do_begin_fails w_down 0 (uow_on down_db) tt (fn_save "p1") 0 ErrConnection e0)
    as [Hrun Hany]; [vm_compute; reflexivity ..|].
  split; [exact Hrun|apply Hany].
Defined.

(** The insert is buffered, then [fn] fails: the error comes back as it
    is, the write is dropped and the table is as before. *)
Lemma Do_fn_error_witness :
  ∃ w', Do the_uow tt (fn_fail "o1") w_good = (Ret (Some ErrForeignKey), w') ∧
        log w' = [EvBeginTx good_db tt; EvNewTransaction (scope_of good_db);
                  EvCallFn tt (scope_of good_db); EvFactory "ProductRepository" 0;
                  EvRollback 0] ∧
        table (env w') = [] ∧ pending (env w') = [].
Proof.
  destruct (Do_fn_error w_good 0 (uow_on good_db) tt (fn_fail "o1") 0 e_begun ErrForeignKey
              (fn_fail "o1" tt (scope_of good_db)
                 (fn_entry w_good good_db tt (scope_of good_db) e_begun)).2)
    as (w' & evs & Hdo & Hlog & -> & _ & Henv & _); [vm_compute; reflexivity ..|].
  exists w'. split; [exact Hdo|]. rewrite Hlog, Henv. vm_compute. done.
Defined.

(** [fn] succeeds.  On the server that accepts commits the row is
    published and [Do] returns nil; on the one that refuses them [Do]
    returns the commit error and the table is as before. *)
Lemma Do_fn_ok_witness :
  (∃ w', Do the_uow tt (fn_save "p1") w_good = (Ret None, w') ∧
         log w' = [EvBeginTx good_db tt; EvNewTransaction (scope_of good_db);
                   EvCallFn tt (scope_of good_db); EvFactory "ProductRepository" 0;
                   EvCommit 0; EvRollback 0] ∧
         table (env w') = ["p1"]) ∧
  (∃ w', Do the_uow tt (fn_save "p1") w_stubborn = (Ret (Some ErrCommit), w') ∧
         table (env w') = []).
Proof.
  split.
  - destruct (Do_fn_ok w_good 0 (uow_on good_db) tt (fn_save "p1") 0 e_begun
                (fn_save "p1" tt (scope_of good_db)
                   (fn_entry w_good good_db tt (scope_of good_db) e_begun)).2)
      as (w' & evs & _ & Hlog & -> & _ & Henv & _ & _ & Hnil & _);
      [vm_compute; reflexivity ..|].
    exists w'. split; [apply Hnil; vm_compute; reflexivity|].
    rewrite Hlog, Henv. vm_compute. done.
  - destruct (Do_fn_ok w_stubborn 0 (uow_on stubborn_db) tt (fn_save "p1") 1 e_begun
                (fn_save "p1" tt (scope_of stubborn_db)
                   (fn_entry w_stubborn stubborn_db tt (scope_of stubborn_db) e_begun)).2)
      as (w' & evs & _ & Hlog & -> & _ & Henv & _ & _ & _ & Herr);
      [vm_compute; reflexivity ..|].
    exists w'. split; [apply Herr; vm_compute; reflexivity|].
    rewrite Henv. vm_compute. done.
Defined.

(** [fn] writes a row and panics: the panic reaches the caller, and the
    rollback has run, so the write is gone and the handle is finished. *)
Lemma Do_rollback_on_every_exit_witness :
  (∃ w', Do the_uow tt (fn_panic "p1") w_good = (Panic (UserPanic "boom"), w') ∧
         log w' = [EvBeginTx good_db tt; EvNewTransaction (scope_of good_db);
                   EvCallFn tt (scope_of good_db); EvRollback 0] ∧
         pending (env w') = [] ∧ table (env w') = [] ∧ finished (env w') = [0]) ∧
  (∃ w', Do the_uow tt (fn_save "p1") w_good = (Ret None, w') ∧
         last (log w') = Some (EvRollback 0) ∧
         table (env w') = ["p1"] ∧ finished (env w') = [0]).
Proof.
  split; [|
    destruct (Do_rollback_on_every_exit w_good 0 (uow_on good_db) tt (fn_save "p1") 0 e_begun
                (Ret None)
                (fn_save "p1" tt (scope_of good_db)
                   (fn_entry w_good good_db tt (scope_of good_db) e_begun)).2
                demo_rollback_after_commit)
      as (res & w' & evs & Hdo & Hlog & _ & _ & -> & -> & _ & Hnoop);
      [vm_compute; reflexivity ..|];
    exists w'; split; [exact Hdo|]; rewrite Hlog, Hnoop; vm_compute; done].
  destruct (Do_rollback_on_every_exit w_good 0 (uow_on good_db) tt (fn_panic "p1") 0 e_begun
              (Panic (UserPanic "boom"))
              (fn_panic "p1" tt (scope_of good_db)
                 (fn_entry w_good good_db tt (scope_of good_db) e_begun)).2
              demo_rollback_after_commit)
    as (res & w' & evs & Hdo & Hlog & _ & _ & -> & -> & Henv);
    [vm_compute; reflexivity ..|].
  exists w'. split; [exact Hdo|]. rewrite Hlog, Henv. vm_compute. done.
Defined.

(** Inside [Do]: [fn] clears the registry and still finds the repository
    through its scope, so it returns nil and the transaction commits;
    afterwards the unit of work has nothing registered. *)
Example Do_clear_inside_fn :
  (Do the_uow tt fn_clear_then_get w_good).1 = Ret None ∧
  (Has the_uow "ProductRepository" (Do the_uow tt fn_clear_then_get w_good).2).1
    = Ret false.
Proof. vm_compute. done. Qed.

(** A zero-value [UnitOfWork]: [Has] answers false, [Register] panics. *)
Example zero_value_unit_of_work :
  let w := mkWorld ∅ {[ 0 := mkUnitOfWork good_db None ]} e0 [] : World in
  Has the_uow "ProductRepository" w = (Ret false, w) ∧
  Register the_uow "ProductRepository" NewProductRepository w
    = (Panic NilMapAssignment, w).
Proof. vm_compute. done. Qed.

End DemoFacts.

(** * Further properties at work on the small transactional resource *)

Module DemoMore.
Import Demo.

Example w_good_live : uows w_good !! 0 = Some (uow_on good_db).
Proof. vm_compute. reflexivity. Qed.

Example w_good_registry : registry_of w_good the_uow = Some both.
Proof. vm_compute. reflexivity. Qed.

Example w_good_begins :
  BeginTx (u_db (uow_on good_db)) tt (env w_good) = ((0, None), e_begun).
Proof. vm_compute. reflexivity. Qed.

Lemma Has_agrees_with_Get_witness :
  (∃ b, Has the_uow "ProductRepository" w_good = (Ret b, w_good) ∧
    (b = true ↔ ∃ f, lookup_binding w_good (t_repositories the_scope) "ProductRepository"
                       = Some f ∧
                     Get the_scope "ProductRepository" w_good
                       = resolve_with "ProductRepository" f (t_tx the_scope) w_good) ∧
    (b = false ↔ Get the_scope "ProductRepository" w_good
                   = (Ret (None, Some ErrRepositoryNotRegistered), w_good)) ∧
    (b = true → ∀ (r : option Object) e w',
       Get the_scope "ProductRepository" w_good = (Ret (r, e), w') → e = None)) ∧
  Has the_uow "NilRepository" w_odd = (Ret true, w_odd).
Proof.
  split.
  - apply (Has_agrees_with_Get w_good 0 (uow_on good_db) the_scope "ProductRepository").
    + exact w_good_live.
    + reflexivity.
  - destruct (Has_agrees_with_Get w_odd 0 (uow_on good_db) the_scope "NilRepository")
      as (b & Hhas & Htrue & _); [vm_compute; reflexivity ..|].
    assert (Hb : b = true).
    { apply Htrue. exists NilFactory. split; vm_compute; reflexivity. }
    rewrite Hb in Hhas. exact Hhas.
Defined.

Lemma Register_then_Remove_witness :
  ∃ w1, Register the_uow "CustomerRepository" NewOrderRepository w_good = (Ret None, w1) ∧
        Remove the_uow "CustomerRepository" w1 = (Ret None, w_good).
Proof.
  apply (Register_then_Remove w_good the_uow both "CustomerRepository" NewOrderRepository).
  - exact w_good_registry.
  - vm_compute. reflexivity.
Defined.

Lemma Remove_then_Register_witness :
  ∃ w1, Remove the_uow "OrderRepository" w_good = (Ret None, w1) ∧
        Register the_uow "OrderRepository" NewOrderRepository w1 = (Ret None, w_good).
Proof.
  apply (Remove_then_Register w_good the_uow both "OrderRepository" NewOrderRepository).
  - exact w_good_registry.
  - vm_compute. reflexivity.
Defined.

Lemma Register_commute_witness :
  ∃ wa wb w',
    Register the_uow "CustomerRepository" NewOrderRepository w_good = (Ret None, wa) ∧
    Register the_uow "StockRepository" NewProductRepository wa = (Ret None, w') ∧
    Register the_uow "StockRepository" NewProductRepository w_good = (Ret None, wb) ∧
    Register the_uow "CustomerRepository" NewOrderRepository wb = (Ret None, w') ∧
    registry_of w' the_uow
      = Some (<["CustomerRepository" := NewOrderRepository]>
                (<["StockRepository" := NewProductRepository]> both)).
Proof.
  apply (Register_commute w_good the_uow both "CustomerRepository" "StockRepository"
           NewOrderRepository NewProductRepository).
  - exact w_good_registry.
  - discriminate.
  - vm_compute. reflexivity.
  - vm_compute. reflexivity.
Defined.

Lemma other_names_untouched_witness :
  (∀ m, lookup_binding (Register the_uow "OrderRepository" NewProductRepository w_good).2
          m "ProductRepository" = lookup_binding w_good m "ProductRepository") ∧
  (∀ m, lookup_binding (Remove the_uow "OrderRepository" w_good).2 m "ProductRepository"
        = lookup_binding w_good m "ProductRepository") ∧
  (Has the_uow "ProductRepository"
     (Register the_uow "OrderRepository" NewProductRepository w_good).2).1
    = (Has the_uow "ProductRepository" w_good).1 ∧
  (Has the_uow "ProductRepository" (Remove the_uow "OrderRepository" w_good).2).1
    = (Has the_uow "ProductRepository" w_good).1.
Proof.
  apply (other_names_untouched w_good the_uow "OrderRepository" "ProductRepository"
           NewProductRepository).
  discriminate.
Defined.

Lemma units_of_work_isolated_witness :
  registry_of (Register the_uow "OrderRepository" NewProductRepository w_two).2 other_uow
    = Some {["OrderRepository" := NewOrderRepository]} ∧
  registry_of (Remove the_uow "OrderRepository" w_two).2 other_uow
    = Some {["OrderRepository" := NewOrderRepository]} ∧
  registry_of (Clear the_uow w_two).2 other_uow
    = Some {["OrderRepository" := NewOrderRepository]}.
Proof.
  apply (units_of_work_isolated w_two 0 1 (mkUnitOfWork good_db (Some 0))
           (mkUnitOfWork good_db (Some 1))).
  - vm_compute. reflexivity.
  - vm_compute. reflexivity.
  - discriminate.
  - vm_compute. reflexivity.
Defined.

Lemma Remove_frees_the_name_witness :
  ∃ w1, Remove the_uow "OrderRepository" w_good = (Ret None, w1) ∧
        Remove the_uow "OrderRepository" w1 = (Ret (Some ErrRepositoryNotRegistered), w1) ∧
        ∀ f, ∃ w2, Register the_uow "OrderRepository" f w1 = (Ret None, w2) ∧
                   registry_of w2 the_uow = Some (<["OrderRepository" := f]> both).
Proof.
  apply (Remove_frees_the_name w_good the_uow both "OrderRepository" NewOrderRepository).
  - exact w_good_registry.
  - vm_compute. reflexivity.
Defined.

Lemma Clear_then_nothing_registered_witness :
  ∃ w1, Clear the_uow w_good = (Ret tt, w1) ∧
    (∀ n, Remove the_uow n w1 = (Ret (Some ErrRepositoryNotRegistered), w1)) ∧
    (∀ tx t w2 n,
       (m ← get_repositories the_uow; NewTransaction tx m) w1 = (Ret t, w2) →
       Get t n w2 = (Ret (None, Some ErrRepositoryNotRegistered), w2)).
Proof.
  apply (Clear_then_nothing_registered w_good 0 (uow_on good_db)). exact w_good_live.
Defined.

(** [fn_save] is the caller's pattern around [save_through]. *)
Lemma Do_calls_fn_once_witness :
  Do the_uow tt (fn_save "p1") w_good
    = Do the_uow tt (with_repository "ProductRepository" (save_through "p1")) w_good.
Proof.
  apply (Do_calls_fn_once w_good 0 (uow_on good_db) tt (fn_save "p1")
           (with_repository "ProductRepository" (save_through "p1")) 0 None e_begun).
  - exact w_good_live.
  - exact w_good_begins.
  - intros _. vm_compute. reflexivity.
Defined.

(** [fn]'s error comes back whether the rollback works or not. *)
Lemma Do_result_ignores_Rollback_witness :
  (Do (driver := driver) the_uow tt (fn_fail "o1") w_good).1
    = (Do (driver := driver_failing_rollback) the_uow tt (fn_fail "o1") w_good).1 ∧
  log (Do (driver := driver) the_uow tt (fn_fail "o1") w_good).2
    = log (Do (driver := driver_failing_rollback) the_uow tt (fn_fail "o1") w_good).2 ∧
  maps (Do (driver := driver) the_uow tt (fn_fail "o1") w_good).2
    = maps (Do (driver := driver_failing_rollback) the_uow tt (fn_fail "o1") w_good).2 ∧
  uows (Do (driver := driver) the_uow tt (fn_fail "o1") w_good).2
    = uows (Do (driver := driver_failing_rollback) the_uow tt (fn_fail "o1") w_good).2.
Proof.
  apply (Do_result_ignores_Rollback driver driver_failing_rollback the_uow tt
           (fn_fail "o1") w_good).
  - intros d c e. reflexivity.
  - intros h e. reflexivity.
Defined.

Example failing_rollback_keeps_error :
  (Do (driver := driver_failing_rollback) the_uow tt (fn_fail "o1") w_good).1
    = Ret (Some ErrForeignKey).
Proof. vm_compute. reflexivity. Qed.

Lemma Do_with_repository_witness :
  (Do the_uow tt (with_repository "CustomerRepository" (save_through "p1")) w_good).1
    = Ret (Some ErrRepositoryNotRegistered) ∧
  (∃ w', Do the_uow tt (with_repository "ProductRepository" (save_through "p1")) w_good
           = (Ret None, w') ∧ table (env w') = ["p1"]) ∧
  (∃ w', Do the_uow tt (with_repository "FailingRepository" (save_through "p1")) w_odd
           = (Panic (UserPanic "no repository"), w') ∧
         last (log w') = Some (EvRollback 0) ∧ table (env w') = []) ∧
  (Do the_uow tt (with_repository "NilRepository" (save_through "p1")) w_odd).1
    = Panic NilPointerDereference.
Proof.
  destruct (Do_with_repository w_good 0 (uow_on good_db) tt "CustomerRepository"
              (save_through "p1") 0 e_begun w_good_live w_good_begins) as (Hmissing & _).
  destruct (Do_with_repository w_good 0 (uow_on good_db) tt "ProductRepository"
              (save_through "p1") 0 e_begun w_good_live w_good_begins) as (_ & Hbound & _).
  destruct (Do_with_repository w_odd 0 (uow_on good_db) tt "FailingRepository"
              (save_through "p1") 0 e_begun) as (_ & _ & Hpanic & _);
    [vm_compute; reflexivity ..|].
  destruct (Do_with_repository w_odd 0 (uow_on good_db) tt "NilRepository"
              (save_through "p1") 0 e_begun) as (_ & _ & _ & Hnil);
    [vm_compute; reflexivity ..|].
  split; [|split; [|split]].
  - refine (f_equal fst (Hmissing _)). vm_compute. reflexivity.
  - eexists. split.
    + refine (Hbound ProductFn _ _ (Ret None) _ _ eq_refl eq_refl);
        vm_compute; reflexivity.
    + vm_compute. reflexivity.
  - eexists. split.
    + refine (Hpanic FailingFn (UserPanic "no repository") _ _ eq_refl);
        vm_compute; reflexivity.
    + split; vm_compute; reflexivity.
  - refine (f_equal fst (Hnil _)). vm_compute. reflexivity.
Defined.

Lemma fn_save_keeps_store row (c : unit) (t : Transaction) (w : World) :
  maps (fn_save row c t w).2 = maps w ∧ uows (fn_save row c t w).2 = uows w.
Proof.
  unfold fn_save, mbind, M_bind. simpl. unfold Transaction_Get, mbind, M_bind, map_get.
  destruct (lookup_binding w (t_repositories t) "ProductRepository") as [[[| |]|]|];
    simpl; done.
Qed.

Lemma Do_preserves_store_witness :
  maps (Do the_uow tt (fn_save "p1") w_good).2 = maps w_good ∧
  uows (Do the_uow tt (fn_save "p1") w_good).2 = uows w_good ∧
  ∀ u', registry_of (Do the_uow tt (fn_save "p1") w_good).2 u' = registry_of w_good u'.
Proof.
  apply (Do_preserves_store the_uow tt (fn_save "p1") w_good).
  intros c t w0. apply fn_save_keeps_store.
Defined.

Lemma zero_value_UnitOfWork_witness :
  Has the_uow "ProductRepository" w_zero = (Ret false, w_zero) ∧
  Remove the_uow "ProductRepository" w_zero = (Ret (Some ErrRepositoryNotRegistered), w_zero) ∧
  Register the_uow "ProductRepository" NewProductRepository w_zero
    = (Panic NilMapAssignment, w_zero) ∧
  ∃ w1 w2, Clear the_uow w_zero = (Ret tt, w1) ∧
           Register the_uow "ProductRepository" NewProductRepository w1 = (Ret None, w2) ∧
           registry_of w2 the_uow = Some {["ProductRepository" := NewProductRepository]}.
Proof.
  apply (zero_value_UnitOfWork w_zero 0 (mkUnitOfWork good_db None)); reflexivity.
Defined.

(** A typed lookup through a scope that cannot reach its registry gives
    that scope's error back, with the zero value. *)
Example GetAs_through_BrokenScope :
  GetAs (T := ProductRepository) (mkBrokenScope ErrConnection) "ProductRepository" w_good
    = (Ret (mkProductRepository None, Some ErrConnection), w_good).
Proof. reflexivity. Qed.

End DemoMore.
